(** * The tracking store of packages/react/src/lib/tracking.ts

    A shallow embedding of [createEffectStore], its methods and the
    module-level reset scheduler, followed by the properties proved of
    them.

    The module keeps three kinds of state: the closure variables of each
    store ([version], [onChangeNotifyReact], [inRender],
    [syncRerendersCount]), the module-level variables shared by all stores
    ([useSignalsDepth], [cleanUpFn], [isResetSyncRerendersScheduled],
    [resetSyncRerendersSet]) and what it hands to its collaborators (the
    microtask queue, the effect of [@preact/signals-core], the callback of
    [useSyncExternalStore]).  All of it is one [World] that every
    operation takes and returns, together with an [Outcome] telling
    whether the call returned or threw.  A JavaScript [throw] does not roll
    back assignments, so a throwing call still returns the world it left. *)

From stdpp Require Import gmap strings list fin_maps pretty.
From Stdlib Require Import ZArith Lia.

Set Default Proof Using "Type".
Open Scope Z_scope.

(** ** Identities *)

(** A store is a heap object; it is named by its address. *)
Abbreviation StoreId := nat (only parsing).
(** The function returned by [effectInstance.S()]: a fresh object per call. *)
Abbreviation Handle := nat (only parsing).
(** The [onStoreChange] function React passes to [subscribe]. *)
Abbreviation Callback := nat (only parsing).

(** ** Calls that leave the module *)

Inductive Event : Type :=
  | EvStartRecording (s : StoreId) (h : Handle)
      (* [effectInstance.S()] of store [s] returned [h] *)
  | EvCleanup (h : Handle)
      (* [cleanUpFn()] was called, [cleanUpFn] being [h] *)
  | EvNotify (s : StoreId) (cb : Callback) (snapshot : Z)
      (* [onChangeNotifyReact()] of store [s] was called; [snapshot] is
         what [getSnapshot] of [s] answers at that moment *)
  | EvDispose (s : StoreId).
      (* [unsubscribe()], the disposer of the effect of [s], was called *)

Global Instance Event_eq_dec : EqDecision Event.
Proof. solve_decision. Defined.

(** The only function the module hands to [_queueMicrotask]. *)
Inductive Microtask : Type :=
  | ResetSyncRerenders.

(** ** Errors *)

Inductive Error : Type :=
  | TooManySyncRerenders (count : Z)
  | CleanUpFnShouldBeUndefined
  | CleanUpFnShouldBeDefined
  | DepthShouldBeNonNegative
  | NotifyRaised (cb : Callback)     (* whatever [onChangeNotifyReact()] threw *)
  | CleanupRaised (h : Handle).      (* whatever [cleanUpFn()] threw *)

Global Instance Error_eq_dec : EqDecision Error.
Proof. solve_decision. Defined.

(** The text of the [Error] objects the module builds itself. *)
Definition message (e : Error) : option string :=
  match e with
  | TooManySyncRerenders n =>
      Some ("preact-signals: Too many sync rerenders (" +:+ pretty n +:+
            "), you might change parent component signal dependencies in render of child component.")%string
  | CleanUpFnShouldBeUndefined => Some "cleanUpFn should be undefined"%string
  | CleanUpFnShouldBeDefined => Some "cleanUpFn should be defined with depth"%string
  | DepthShouldBeNonNegative => Some "useSignalsDepth should be non-negative"%string
  | NotifyRaised _ | CleanupRaised _ => None
  end.

Inductive Outcome : Type :=
  | Returned
  | Threw (e : Error).

Global Instance Outcome_eq_dec : EqDecision Outcome.
Proof. solve_decision. Defined.

(** ** Numbers *)

(** [x | 0] on an integer [x]: ECMAScript's ToInt32. *)
Definition toInt32 (z : Z) : Z := (z + 2 ^ 31) mod 2 ^ 32 - 2 ^ 31.

(** [(version + 1) | 0] done [n] times over. *)
Definition bumped (n : nat) (v : Z) : Z := Nat.iter n (λ x, toInt32 (x + 1)) v.

Definition maxSyncRerenders : Z := 25.

(** ** The closure of one store *)

Record Store : Type := mkStore {
  version : Z;
  onChangeNotifyReact : option Callback;
  inRender : bool;
  syncRerendersCount : Z;
  effectDisposed : bool
}.

(** The closure as [createEffectStore] leaves it. *)
Definition createEffectStore : Store :=
  {| version := 0;
     onChangeNotifyReact := None;
     inRender := false;
     syncRerendersCount := 0;
     effectDisposed := false |}.

Global Instance Store_inhabited : Inhabited Store := populate createEffectStore.

Definition set_version (v : Z) (st : Store) : Store :=
  mkStore v (onChangeNotifyReact st) (inRender st) (syncRerendersCount st)
          (effectDisposed st).
Definition set_onChangeNotifyReact (c : option Callback) (st : Store) : Store :=
  mkStore (version st) c (inRender st) (syncRerendersCount st)
          (effectDisposed st).
Definition set_inRender (b : bool) (st : Store) : Store :=
  mkStore (version st) (onChangeNotifyReact st) b (syncRerendersCount st)
          (effectDisposed st).
Definition set_syncRerendersCount (n : Z) (st : Store) : Store :=
  mkStore (version st) (onChangeNotifyReact st) (inRender st) n
          (effectDisposed st).
Definition set_effectDisposed (b : bool) (st : Store) : Store :=
  mkStore (version st) (onChangeNotifyReact st) (inRender st)
          (syncRerendersCount st) b.

(** ** The module and its surroundings *)

Record World : Type := mkWorld {
  stores : gmap nat Store;
    (* the stores created so far; an address not in the map reads as a
       store just created *)
  useSignalsDepth : Z;
  cleanUpFn : option Handle;
  isResetSyncRerendersScheduled : bool;
  resetSyncRerendersSet : list StoreId;
    (* a JavaScript [Set]: insertion order, no duplicates *)
  microtasks : list Microtask;
    (* functions queued with [_queueMicrotask], oldest first *)
  nextHandle : Handle;
  trace : list Event
}.

(** The module just loaded. *)
Definition initial : World :=
  {| stores := ∅;
     useSignalsDepth := 0;
     cleanUpFn := None;
     isResetSyncRerendersScheduled := false;
     resetSyncRerendersSet := [];
     microtasks := [];
     nextHandle := 0%nat;
     trace := [] |}.

Definition store_of (w : World) (s : StoreId) : Store := stores w !!! s.

Definition with_store (s : StoreId) (f : Store → Store) (w : World) : World :=
  mkWorld (<[s := f (store_of w s)]> (stores w)) (useSignalsDepth w) (cleanUpFn w)
          (isResetSyncRerendersScheduled w) (resetSyncRerendersSet w)
          (microtasks w) (nextHandle w) (trace w).
Definition set_useSignalsDepth (d : Z) (w : World) : World :=
  mkWorld (stores w) d (cleanUpFn w) (isResetSyncRerendersScheduled w)
          (resetSyncRerendersSet w) (microtasks w) (nextHandle w) (trace w).
Definition set_cleanUpFn (c : option Handle) (w : World) : World :=
  mkWorld (stores w) (useSignalsDepth w) c (isResetSyncRerendersScheduled w)
          (resetSyncRerendersSet w) (microtasks w) (nextHandle w) (trace w).
Definition set_isResetSyncRerendersScheduled (b : bool) (w : World) : World :=
  mkWorld (stores w) (useSignalsDepth w) (cleanUpFn w) b
          (resetSyncRerendersSet w) (microtasks w) (nextHandle w) (trace w).
Definition set_resetSyncRerendersSet (l : list StoreId) (w : World) : World :=
  mkWorld (stores w) (useSignalsDepth w) (cleanUpFn w)
          (isResetSyncRerendersScheduled w) l (microtasks w) (nextHandle w)
          (trace w).
Definition set_microtasks (q : list Microtask) (w : World) : World :=
  mkWorld (stores w) (useSignalsDepth w) (cleanUpFn w)
          (isResetSyncRerendersScheduled w) (resetSyncRerendersSet w) q
          (nextHandle w) (trace w).
Definition set_nextHandle (h : Handle) (w : World) : World :=
  mkWorld (stores w) (useSignalsDepth w) (cleanUpFn w)
          (isResetSyncRerendersScheduled w) (resetSyncRerendersSet w)
          (microtasks w) h (trace w).
Definition log (e : Event) (w : World) : World :=
  mkWorld (stores w) (useSignalsDepth w) (cleanUpFn w)
          (isResetSyncRerendersScheduled w) (resetSyncRerendersSet w)
          (microtasks w) (nextHandle w) (trace w ++ [e]).

(** How often [onChangeNotifyReact] of store [s] was called in a trace. *)
Definition is_notify_of (s : StoreId) (e : Event) : bool :=
  match e with
  | EvNotify s' _ _ => bool_decide (s' = s)
  | _ => false
  end.
Definition notify_count (s : StoreId) (tr : list Event) : nat :=
  length (List.filter (is_notify_of s) tr).

(** ** The reset scheduler (lines 48 to 66) *)

(** [store[EffectStoreFields.resetSyncRerenders]()] *)
Definition store_resetSyncRerenders (s : StoreId) (w : World) : World :=
  with_store s (set_syncRerendersCount 0) w.

Definition resetSyncRerenders (w : World) : World :=
  let w1 := set_isResetSyncRerendersScheduled false w in
  let w2 := foldl (λ acc s, store_resetSyncRerenders s acc) w1
                  (resetSyncRerendersSet w1) in
  set_resetSyncRerendersSet [] w2.

Definition scheduleResetSyncRerenders (s : StoreId) (w : World) : World :=
  let w1 :=
    if isResetSyncRerendersScheduled w then w
    else set_microtasks (microtasks w ++ [ResetSyncRerenders])
           (set_isResetSyncRerendersScheduled true w) in
  if bool_decide (s ∈ resetSyncRerendersSet w1) then w1
  else set_resetSyncRerendersSet (resetSyncRerendersSet w1 ++ [s]) w1.

(** The event loop taking the oldest microtask and running it. *)
Definition runMicrotask (w : World) : World :=
  match microtasks w with
  | [] => w
  | ResetSyncRerenders :: q => resetSyncRerenders (set_microtasks q w)
  end.

(** ** The store (lines 84 to 178) *)

Definition getSnapshot (s : StoreId) (w : World) : Z := version (store_of w s).

Definition subscribe (s : StoreId) (onStoreChange : Callback) (w : World) : World :=
  with_store s (set_onChangeNotifyReact (Some onStoreChange)) w.

(** The function [subscribe] returns. *)
Definition unsubscribe (s : StoreId) (w : World) : World :=
  let w1 := with_store s (λ st, set_version (toInt32 (version st + 1)) st) w in
  let w2 := with_store s (set_onChangeNotifyReact None) w1 in
  log (EvDispose s) (with_store s (set_effectDisposed true) w2).

Definition startTracking (s : StoreId) (w : World) : Outcome * World :=
  let w1 := with_store s (set_inRender true) w in
  let w2 := with_store s (λ st, set_syncRerendersCount (syncRerendersCount st + 1) st) w1 in
  let w3 := scheduleResetSyncRerenders s w2 in
  if bool_decide (useSignalsDepth w3 = 0) && bool_decide (is_Some (cleanUpFn w3)) then
    (Threw CleanUpFnShouldBeUndefined, w3)
  else if negb (bool_decide (useSignalsDepth w3 = 0)) && negb (bool_decide (is_Some (cleanUpFn w3))) then
    (Threw CleanUpFnShouldBeDefined, w3)
  else
    let w4 :=
      if bool_decide (useSignalsDepth w3 = 0) then
        let h := nextHandle w3 in
        set_cleanUpFn (Some h) (log (EvStartRecording s h) (set_nextHandle (S h) w3))
      else w3 in
    (Returned, set_useSignalsDepth (useSignalsDepth w4 + 1) w4).

(** Collaborators that never throw. *)
Definition never (_ : nat) (_ : list Event) : bool := false.
(** Collaborators that always throw. *)
Definition always (_ : nat) (_ : list Event) : bool := true.

(** ** The callers (lines 201 to 224) *)

(** [createEffectStore()] when the object it returns is put at address
    [a]: the closure starts as [createEffectStore] says. *)
Definition createEffectStore_at (a : StoreId) (w : World) : World :=
  with_store a (λ _, createEffectStore) w.

(** [useSignals].  [storeRef] is [storeRef.current], [None] for [null]
    or [undefined]; [fresh] is the address a store made now would get.
    [useSyncExternalStore] only reads snapshots while the component
    renders and subscribes after the commit, with a call of [subscribe]
    of its own, so it leaves the world alone here.  The answer is the
    new [storeRef.current], the store returned and what [startTracking]
    did. *)
Definition useSignals (fresh : StoreId) (storeRef : option StoreId) (w : World)
  : option StoreId * StoreId * (Outcome * World) :=
  let '(s, w1) :=
    match storeRef with
    | Some s => (s, w)
    | None => (fresh, createEffectStore_at fresh w)
    end in
  (Some s, s, startTracking s w1).

(** How a render of [SignalValue] ends. *)
Inductive Rendered : Type :=
  | RValue                  (* [props.data.value] is returned *)
  | RValueThrew             (* reading [props.data.value] threw *)
  | RThrew (e : Error).     (* [useSignals] or [finishTracking] threw *)

(** Everything a client of the module can make happen. *)
Inductive Op : Type :=
  | OStart (s : StoreId)
  | OFinish (s : StoreId)
  | ODispose (s : StoreId)
  | OSubscribe (s : StoreId) (cb : Callback)
  | OUnsubscribe (s : StoreId)
  | OChange (s : StoreId)     (* the effect of [s] calls [onDepsChange] *)
  | OMicrotask.               (* the event loop runs the oldest microtask *)

Section Collaborators.

(** Whether a call of the React callback, respectively of the function
    [effectInstance.S()] returned, throws; it may depend on all that
    happened before. *)
Variable notify_raises : Callback → list Event → bool.
Variable cleanup_raises : Handle → list Event → bool.

(** [effectInstance[EffectFields.onDepsChange]] *)
Definition onDepsChange (s : StoreId) (w : World) : Outcome * World :=
  let st := store_of w s in
  if inRender st then (Returned, w)
  else if bool_decide (maxSyncRerenders < syncRerendersCount st) then
    (Threw (TooManySyncRerenders (syncRerendersCount st)), w)
  else
    let w1 := with_store s (set_version (toInt32 (version st + 1))) w in
    match onChangeNotifyReact (store_of w1 s) with
    | None => (Returned, w1)
    | Some cb =>
        let w2 := log (EvNotify s cb (getSnapshot s w1)) w1 in
        (if notify_raises cb (trace w1) then Threw (NotifyRaised cb) else Returned, w2)
    end.

Definition finishTracking (s : StoreId) (w : World) : Outcome * World :=
  if bool_decide (useSignalsDepth w < 1) then (Threw DepthShouldBeNonNegative, w)
  else
    let '(o, w1) :=
      (* the outer [try] *)
      if bool_decide (useSignalsDepth w = 1) && negb (bool_decide (is_Some (cleanUpFn w))) then
        (Threw CleanUpFnShouldBeDefined, w)
      else
        match bool_decide (useSignalsDepth w = 1), cleanUpFn w with
        | true, Some h =>
            (* the inner [try] *)
            let o := if cleanup_raises h (trace w) then Threw (CleanupRaised h)
                     else Returned in
            let wc := log (EvCleanup h) w in
            (* the inner [finally] *)
            (o, set_cleanUpFn None (with_store s (set_inRender false) wc))
        | _, _ => (Returned, w)
        end in
    (* the outer [finally] *)
    (o, set_useSignalsDepth (useSignalsDepth w1 - 1) w1).

(** [store[Symbol.dispose]()] *)
Definition dispose (s : StoreId) (w : World) : Outcome * World :=
  finishTracking s w.

(** One call of a tracking method, as a render stack makes them. *)
Inductive Call : Type :=
  | CStart (s : StoreId)
  | CFinish (s : StoreId).

Definition call (c : Call) (w : World) : Outcome * World :=
  match c with
  | CStart s => startTracking s w
  | CFinish s => finishTracking s w
  end.

(** Calls made one after the other, up to the first that throws. *)
Fixpoint run (cs : list Call) (w : World) : Outcome * World :=
  match cs with
  | [] => (Returned, w)
  | c :: cs' =>
      match call c w with
      | (Returned, w') => run cs' w'
      | thrown => thrown
      end
  end.

(** [n] dependency changes delivered to store [s], each a call of its
    own made by the signal that changed; what a delivery throws goes to
    that signal's writer and the next delivery finds the world the
    previous one left. *)
Fixpoint deliver (n : nat) (s : StoreId) (w : World) : World :=
  match n with
  | O => w
  | S n' => deliver n' s (snd (onDepsChange s w))
  end.

(** [n] renders of store [s] in a row, each bracketed as [useSignals]
    and the [finally] of the component do. *)
Fixpoint cycles (n : nat) (s : StoreId) : list Call :=
  match n with
  | O => []
  | S n' => CStart s :: CFinish s :: cycles n' s
  end.

(** Render stacks: every [startTracking] is closed by the
    [finishTracking] of the same store, in last-opened-first-closed
    order. *)
Inductive nested : list Call → Prop :=
  | nested_nil : nested []
  | nested_cons s inner rest :
      nested inner → nested rest →
      nested (CStart s :: inner ++ CFinish s :: rest).

(** The shared handle is there exactly while a tracking region is open. *)
Definition tracking_inv (w : World) : Prop :=
  is_Some (cleanUpFn w) ↔ 0 < useSignalsDepth w.

(** [scheduleResetSyncRerenders] called for each store of a list. *)
Definition schedule_all (ss : list StoreId) (w : World) : World :=
  foldl (λ acc s, scheduleResetSyncRerenders s acc) w ss.

(** The events of [n] deliveries: one call of [cb] each, seeing the
    version the delivery has just written. *)
Fixpoint notifications (n : nat) (s : StoreId) (cb : Callback) (v : Z) : list Event :=
  match n with
  | O => []
  | S n' => EvNotify s cb (toInt32 (v + 1)) :: notifications n' s cb (toInt32 (v + 1))
  end.

(** The world [startTracking] has made before it looks at the depth. *)
Definition entered (s : StoreId) (w : World) : World :=
  scheduleResetSyncRerenders s
    (with_store s (λ st, set_syncRerendersCount (syncRerendersCount st + 1) st)
       (with_store s (set_inRender true) w)).

(** [SignalValue].  [value_raises] tells whether reading
    [props.data.value] throws.  [useSignals] is called outside the [try],
    so when it throws nothing else runs; otherwise [finishTracking] runs
    in the [finally], and what it throws replaces the outcome of the
    [try] block. *)
Definition SignalValue (value_raises : bool) (fresh : StoreId)
    (storeRef : option StoreId) (w : World) : option StoreId * (Rendered * World) :=
  let '(ref', s, (o, w1)) := useSignals fresh storeRef w in
  match o with
  | Threw e => (ref', (RThrew e, w1))
  | Returned =>
      let body := if value_raises then RValueThrew else RValue in
      match finishTracking s w1 with
      | (Threw e, w2) => (ref', (RThrew e, w2))
      | (Returned, w2) => (ref', (body, w2))
      end
  end.

Definition perform (o : Op) (w : World) : Outcome * World :=
  match o with
  | OStart s => startTracking s w
  | OFinish s => finishTracking s w
  | ODispose s => dispose s w
  | OSubscribe s cb => (Returned, subscribe s cb w)
  | OUnsubscribe s => (Returned, unsubscribe s w)
  | OChange s => onDepsChange s w
  | OMicrotask => (Returned, runMicrotask w)
  end.

(** Operations one after the other, each finding the world the one
    before left, whether it returned or threw. *)
Definition perform_all (os : list Op) (w : World) : World :=
  foldl (λ acc o, snd (perform o acc)) w os.

(** What holds of every world the module can be in. *)
Definition coherent (w : World) : Prop :=
  (∀ s, - 2 ^ 31 ≤ version (store_of w s) < 2 ^ 31)
  ∧ 0 ≤ useSignalsDepth w
  ∧ tracking_inv w
  ∧ microtasks w
    = (if isResetSyncRerendersScheduled w then [ResetSyncRerenders] else [])
  ∧ (resetSyncRerendersSet w ≠ [] → isResetSyncRerendersScheduled w = true)
  ∧ NoDup (resetSyncRerendersSet w)
  ∧ (∀ s, 0 ≤ syncRerendersCount (store_of w s))
  ∧ (∀ s, syncRerendersCount (store_of w s) ≠ 0 → s ∈ resetSyncRerendersSet w).

(** The stores a render stack starts. *)
Definition started (cs : list Call) (s : StoreId) : Prop := CStart s ∈ cs.

(** * Properties *)

(** Drops the collaborators a goal does not speak of, so that no
    solver drags them into the proof. *)
Ltac forget_collaborators :=
  repeat match goal with
         | f : nat → list Event → bool |- _ => clear f
         end.

(** ** Reading a store after an update *)

Lemma store_of_with_store_eq s f w :
  store_of (with_store s f w) s = f (store_of w s).
Proof. unfold store_of, with_store; simpl. apply lookup_total_insert_eq. Qed.

Lemma store_of_with_store_ne s s' f w :
  s ≠ s' → store_of (with_store s f w) s' = store_of w s'.
Proof.
  intros Hne. unfold store_of, with_store; simpl.
  by apply lookup_total_insert_ne.
Qed.

(** ** ToInt32 *)

Lemma toInt32_range z : - 2 ^ 31 ≤ toInt32 z < 2 ^ 31.
Proof.
  unfold toInt32.
  pose proof (Z.mod_pos_bound (z + 2 ^ 31) (2 ^ 32) ltac:(lia)). lia.
Qed.

Lemma toInt32_add_l a b : toInt32 (toInt32 a + b) = toInt32 (a + b).
Proof.
  unfold toInt32.
  replace ((a + 2 ^ 31) `mod` 2 ^ 32 - 2 ^ 31 + b + 2 ^ 31)
    with ((a + 2 ^ 31) `mod` 2 ^ 32 + b) by lia.
  rewrite Z.add_mod_idemp_l by lia.
  do 2 f_equal. lia.
Qed.

Lemma toInt32_congr z : toInt32 z `mod` 2 ^ 32 = z `mod` 2 ^ 32.
Proof.
  unfold toInt32.
  rewrite <- Zminus_mod_idemp_l, Z.mod_mod by lia.
  rewrite Zminus_mod_idemp_l. f_equal. lia.
Qed.

(** The next version is never the present one, wrap-around included. *)
Lemma toInt32_succ_neq z : toInt32 (z + 1) ≠ z.
Proof.
  intros Heq. pose proof (toInt32_range (z + 1)) as Hr. rewrite Heq in Hr.
  unfold toInt32 in Heq.
  destruct (decide (z + 1 + 2 ^ 31 < 2 ^ 32)) as [Hlt|Hge].
  - rewrite Z.mod_small in Heq by lia. lia.
  - replace (z + 1 + 2 ^ 31) with (2 ^ 32) in Heq by lia.
    rewrite Z_mod_same_full in Heq. lia.
Qed.

(** ** The dependency-change handler *)

(** The handler's three ways out, told apart by the store it finds. *)
Lemma onDepsChange_in_render s w :
  inRender (store_of w s) = true → onDepsChange s w = (Returned, w).
Proof. intros H. unfold onDepsChange. by rewrite H. Qed.

Lemma onDepsChange_too_many s w :
  inRender (store_of w s) = false →
  maxSyncRerenders < syncRerendersCount (store_of w s) →
  onDepsChange s w
  = (Threw (TooManySyncRerenders (syncRerendersCount (store_of w s))), w).
Proof.
  intros Hr Hc. unfold onDepsChange. rewrite Hr.
  by rewrite bool_decide_eq_true_2.
Qed.

Lemma onDepsChange_notifies s cb w :
  inRender (store_of w s) = false →
  syncRerendersCount (store_of w s) ≤ maxSyncRerenders →
  onChangeNotifyReact (store_of w s) = Some cb →
  onDepsChange s w
  = (if notify_raises cb (trace w) then Threw (NotifyRaised cb) else Returned,
     log (EvNotify s cb (toInt32 (version (store_of w s) + 1)))
         (with_store s (set_version (toInt32 (version (store_of w s) + 1))) w)).
Proof.
  intros Hr Hc Hcb. unfold onDepsChange. rewrite Hr.
  rewrite bool_decide_eq_false_2 by lia.
  rewrite store_of_with_store_eq. simpl. rewrite Hcb.
  unfold getSnapshot. rewrite store_of_with_store_eq. reflexivity.
Qed.

Lemma onDepsChange_silent s w :
  inRender (store_of w s) = false →
  syncRerendersCount (store_of w s) ≤ maxSyncRerenders →
  onChangeNotifyReact (store_of w s) = None →
  onDepsChange s w
  = (Returned, with_store s (set_version (toInt32 (version (store_of w s) + 1))) w).
Proof.
  intros Hr Hc Hcb. unfold onDepsChange. rewrite Hr.
  rewrite bool_decide_eq_false_2 by lia.
  rewrite store_of_with_store_eq. simpl. by rewrite Hcb.
Qed.

Lemma notify_count_app s tr1 tr2 :
  notify_count s (tr1 ++ tr2) = (notify_count s tr1 + notify_count s tr2)%nat.
Proof. unfold notify_count. by rewrite List.filter_app, length_app. Qed.

Lemma notify_count_EvNotify s cb v : notify_count s [EvNotify s cb v] = 1%nat.
Proof. unfold notify_count. simpl. by rewrite bool_decide_eq_true_2. Qed.

Lemma bumped_S_r n v : bumped (S n) v = bumped n (toInt32 (v + 1)).
Proof. unfold bumped. by rewrite Nat.iter_succ_r. Qed.

Lemma bumped_pos n v : bumped (S n) v = toInt32 (v + Z.of_nat (S n)).
Proof.
  induction n as [|n IH]; [done|].
  change (bumped (S (S n)) v) with (toInt32 (bumped (S n) v + 1)).
  rewrite IH, toInt32_add_l. f_equal. lia.
Qed.

Lemma bumped_congr n v : bumped n v `mod` 2 ^ 32 = (v + Z.of_nat n) `mod` 2 ^ 32.
Proof.
  destruct n as [|n]; [simpl; f_equal; lia|].
  by rewrite bumped_pos, toInt32_congr.
Qed.

Lemma notify_count_notifications n : ∀ s cb v,
  notify_count s (notifications n s cb v) = n.
Proof.
  induction n as [|n IH]; intros s cb v; [done|].
  change (notifications (S n) s cb v)
    with ([EvNotify s cb (toInt32 (v + 1))] ++ notifications n s cb (toInt32 (v + 1))).
  by rewrite notify_count_app, notify_count_EvNotify, IH.
Qed.

(** What [n] deliveries do to a store that is not rendering, is below
    the ceiling and has a subscriber. *)
Lemma deliver_spec n : ∀ s cb w,
  inRender (store_of w s) = false →
  syncRerendersCount (store_of w s) ≤ maxSyncRerenders →
  onChangeNotifyReact (store_of w s) = Some cb →
  store_of (deliver n s w) s
  = set_version (bumped n (version (store_of w s))) (store_of w s)
  ∧ trace (deliver n s w)
    = trace w ++ notifications n s cb (version (store_of w s)).
Proof.
  induction n as [|n IH]; intros s cb w Hr Hc Hcb.
  { simpl. split; [by destruct (store_of w s)|by rewrite app_nil_r]. }
  cbn [deliver]. rewrite (onDepsChange_notifies s cb w Hr Hc Hcb).
  cbn [snd]. set (v1 := toInt32 (version (store_of w s) + 1)).
  set (w1 := log _ _).
  assert (Hst : store_of w1 s = set_version v1 (store_of w s)).
  { unfold w1, log, store_of; simpl. apply lookup_total_insert_eq. }
  destruct (IH s cb w1) as [Hs Ht]; rewrite ?Hst; try done.
  split.
  - rewrite Hs, Hst, bumped_S_r. done.
  - rewrite Ht, Hst. unfold w1; simpl. by rewrite <- app_assoc.
Qed.

(** C1, as the code has it.  A store that is not rendering, whose
    re-render count has not passed the ceiling of 25 and that has a
    subscriber receives [n] dependency changes, no tracking call in
    between.  Its version ends at the old one plus [n], wrapped to 32
    bits each time, hence congruent to that sum modulo 2^32, and the
    subscriber was called exactly [n] times, once per change and every
    time with the version just written, whether or not it threw. *)
Theorem deliveries_bump_and_notify n s cb w :
  inRender (store_of w s) = false →
  syncRerendersCount (store_of w s) ≤ maxSyncRerenders →
  onChangeNotifyReact (store_of w s) = Some cb →
  getSnapshot s (deliver n s w) `mod` 2 ^ 32
  = (getSnapshot s w + Z.of_nat n) `mod` 2 ^ 32
  ∧ (0 < n → getSnapshot s (deliver n s w) = toInt32 (getSnapshot s w + Z.of_nat n))%nat
  ∧ notify_count s (trace (deliver n s w)) = (notify_count s (trace w) + n)%nat
  ∧ trace (deliver n s w) = trace w ++ notifications n s cb (getSnapshot s w)
  ∧ onChangeNotifyReact (store_of (deliver n s w) s) = Some cb.
Proof.
  intros Hr Hc Hcb.
  destruct (deliver_spec n s cb w Hr Hc Hcb) as [Hs Ht].
  unfold getSnapshot. rewrite Hs, Ht. simpl.
  repeat split.
  - apply bumped_congr.
  - destruct n as [|n]; [lia|]. intros _. apply bumped_pos.
  - by rewrite notify_count_app, notify_count_notifications.
  - done.
Qed.

(** The handler calls the subscriber in no other case than that of
    [onDepsChange_notifies]. *)
Lemma onDepsChange_calls_only_then s w :
  trace (snd (onDepsChange s w)) = trace w
  ∨ ∃ cb, inRender (store_of w s) = false
          ∧ syncRerendersCount (store_of w s) ≤ maxSyncRerenders
          ∧ onChangeNotifyReact (store_of w s) = Some cb
          ∧ trace (snd (onDepsChange s w))
            = trace w ++ [EvNotify s cb (toInt32 (version (store_of w s) + 1))].
Proof.
  destruct (inRender (store_of w s)) eqn:Hr.
  { left. by rewrite onDepsChange_in_render. }
  destruct (decide (maxSyncRerenders < syncRerendersCount (store_of w s))) as [Hc|Hc].
  { left. by rewrite onDepsChange_too_many. }
  destruct (onChangeNotifyReact (store_of w s)) as [cb|] eqn:Hcb.
  - right. exists cb. rewrite (onDepsChange_notifies s cb) by (done || lia).
    repeat split; (done || lia).
  - left. by rewrite onDepsChange_silent by (done || lia).
Qed.

(** C5.  When the handler calls the subscriber (the store is not
    rendering, is below the ceiling and has one), the version is written
    first: the call sees the new version, a snapshot read afterwards
    gives that same new version, different from the old one, and if the
    subscriber throws the handler throws what it threw, the new version
    staying in place. *)
Theorem version_written_before_notify s cb w :
  inRender (store_of w s) = false →
  syncRerendersCount (store_of w s) ≤ maxSyncRerenders →
  onChangeNotifyReact (store_of w s) = Some cb →
  trace (snd (onDepsChange s w))
  = trace w ++ [EvNotify s cb (toInt32 (getSnapshot s w + 1))]
  ∧ getSnapshot s (snd (onDepsChange s w)) = toInt32 (getSnapshot s w + 1)
  ∧ getSnapshot s (snd (onDepsChange s w)) ≠ getSnapshot s w
  ∧ (notify_raises cb (trace w) = true →
     fst (onDepsChange s w) = Threw (NotifyRaised cb))
  ∧ (notify_raises cb (trace w) = false →
     fst (onDepsChange s w) = Returned).
Proof.
  intros Hr Hc Hcb. rewrite (onDepsChange_notifies s cb w Hr Hc Hcb).
  unfold getSnapshot. cbn [fst snd].
  assert (Hv : version (store_of (log (EvNotify s cb (toInt32 (version (store_of w s) + 1)))
                 (with_store s (set_version (toInt32 (version (store_of w s) + 1))) w)) s)
               = toInt32 (version (store_of w s) + 1)).
  { unfold log, store_of; simpl. by rewrite lookup_total_insert_eq. }
  rewrite Hv. repeat split.
  - apply toInt32_succ_neq.
  - by intros ->.
  - by intros ->.
Qed.

(** The error of the ceiling comes from one place only. *)
Lemma onDepsChange_too_many_inv s w n w' :
  onDepsChange s w = (Threw (TooManySyncRerenders n), w') →
  w' = w
  ∧ inRender (store_of w s) = false
  ∧ n = syncRerendersCount (store_of w s)
  ∧ maxSyncRerenders < n.
Proof.
  unfold onDepsChange.
  destruct (inRender (store_of w s)); [done|].
  case_bool_decide as Hc.
  - intros [= <- <-]. done.
  - destruct (onChangeNotifyReact _); [|done].
    by destruct (notify_raises _ _).
Qed.

(** C10.  Whenever the handler throws the too-many-sync-rerenders error
    the world is the one it was called in: the version is the old one
    and nothing was added to the trace, so the subscriber was not
    called.  The error carries the count, which is above the ceiling. *)
Theorem too_many_leaves_world s w n w' :
  onDepsChange s w = (Threw (TooManySyncRerenders n), w') →
  w' = w
  ∧ getSnapshot s w' = getSnapshot s w
  ∧ notify_count s (trace w') = notify_count s (trace w)
  ∧ n = syncRerendersCount (store_of w s)
  ∧ maxSyncRerenders < n.
Proof.
  intros H. by apply onDepsChange_too_many_inv in H as (-> & _ & -> & ?).
Qed.

(** ** Subscribing *)

(** C7.  Subscribe, call the function returned, subscribe again, no
    dependency change in between: the snapshot after the second
    subscribe is not the one read before unsubscribing.  The returned
    function writes the version plus one wrapped to 32 bits, clears the
    subscriber and calls the disposer of the effect. *)
Theorem resubscribe_sees_new_snapshot s cb1 cb2 w :
  getSnapshot s (subscribe s cb2 (unsubscribe s (subscribe s cb1 w)))
  ≠ getSnapshot s (subscribe s cb1 w)
  ∧ getSnapshot s (unsubscribe s (subscribe s cb1 w))
    = toInt32 (getSnapshot s (subscribe s cb1 w) + 1)
  ∧ onChangeNotifyReact (store_of (subscribe s cb1 w) s) = Some cb1
  ∧ onChangeNotifyReact (store_of (unsubscribe s (subscribe s cb1 w)) s) = None
  ∧ effectDisposed (store_of (unsubscribe s (subscribe s cb1 w)) s) = true
  ∧ trace (unsubscribe s (subscribe s cb1 w))
    = trace (subscribe s cb1 w) ++ [EvDispose s].
Proof.
  assert (Hu : ∀ w0, store_of (unsubscribe s w0) s
    = set_effectDisposed true (set_onChangeNotifyReact None
        (set_version (toInt32 (version (store_of w0 s) + 1)) (store_of w0 s)))).
  { intros w0. unfold unsubscribe.
    change (store_of (log ?e ?x) s) with (store_of x s).
    by rewrite !store_of_with_store_eq. }
  unfold getSnapshot, subscribe at 1.
  rewrite store_of_with_store_eq, !Hu. simpl.
  repeat split; try apply toInt32_succ_neq.
  unfold subscribe. by rewrite store_of_with_store_eq.
Qed.

(** ** Starting and finishing a tracking region *)

(** The scheduler touches neither the stores nor the tracking state. *)
Lemma scheduleResetSyncRerenders_frame s w :
  stores (scheduleResetSyncRerenders s w) = stores w
  ∧ useSignalsDepth (scheduleResetSyncRerenders s w) = useSignalsDepth w
  ∧ cleanUpFn (scheduleResetSyncRerenders s w) = cleanUpFn w
  ∧ nextHandle (scheduleResetSyncRerenders s w) = nextHandle w
  ∧ trace (scheduleResetSyncRerenders s w) = trace w.
Proof.
  unfold scheduleResetSyncRerenders.
  destruct (isResetSyncRerendersScheduled w); case_bool_decide; done.
Qed.

Lemma entered_frame s w :
  useSignalsDepth (entered s w) = useSignalsDepth w
  ∧ cleanUpFn (entered s w) = cleanUpFn w
  ∧ nextHandle (entered s w) = nextHandle w
  ∧ trace (entered s w) = trace w.
Proof.
  unfold entered.
  destruct (scheduleResetSyncRerenders_frame s
    (with_store s (λ st, set_syncRerendersCount (syncRerendersCount st + 1) st)
       (with_store s (set_inRender true) w))) as (_ & -> & -> & -> & ->).
  done.
Qed.

Ltac start_cases s w :=
  forget_collaborators;
  unfold startTracking; fold (entered s w);
  destruct (entered_frame s w) as (Ed & Ec & Eh & _);
  rewrite ?Ed, ?Ec, ?Eh;
  repeat case_bool_decide; simpl; rewrite ?Ed, ?Ec, ?Eh;
  try done; try lia; try (exfalso; naive_solver).

Lemma startTracking_outermost s w :
  useSignalsDepth w = 0 → cleanUpFn w = None →
  startTracking s w
  = (Returned,
     set_useSignalsDepth 1
       (set_cleanUpFn (Some (nextHandle w))
          (log (EvStartRecording s (nextHandle w))
             (set_nextHandle (S (nextHandle w)) (entered s w))))).
Proof.
  intros Hd Hc. start_cases s w.
  - rewrite Hc in *. by destruct (is_Some_None (A:=nat)).
  - by rewrite Hd.
Qed.

Lemma startTracking_inner s h w :
  useSignalsDepth w ≠ 0 → cleanUpFn w = Some h →
  startTracking s w
  = (Returned, set_useSignalsDepth (useSignalsDepth w + 1) (entered s w)).
Proof. intros Hd Hc. start_cases s w. Qed.

Lemma startTracking_handle_at_depth_0 s w :
  useSignalsDepth w = 0 → is_Some (cleanUpFn w) →
  startTracking s w = (Threw CleanUpFnShouldBeUndefined, entered s w).
Proof. intros Hd Hc. start_cases s w. Qed.

Lemma startTracking_no_handle_at_depth s w :
  useSignalsDepth w ≠ 0 → cleanUpFn w = None →
  startTracking s w = (Threw CleanUpFnShouldBeDefined, entered s w).
Proof.
  intros Hd Hc. start_cases s w.
  rewrite Hc in *. by destruct (is_Some_None (A:=nat)).
Qed.

Ltac finish_cases :=
  forget_collaborators;
  unfold finishTracking;
  repeat case_bool_decide; simpl;
  try done; try lia; try (exfalso; naive_solver).

Lemma finishTracking_at_depth_0 s w :
  useSignalsDepth w < 1 →
  finishTracking s w = (Threw DepthShouldBeNonNegative, w).
Proof. intros Hd. finish_cases. Qed.

Lemma finishTracking_no_handle s w :
  useSignalsDepth w = 1 → cleanUpFn w = None →
  finishTracking s w = (Threw CleanUpFnShouldBeDefined, set_useSignalsDepth 0 w).
Proof.
  intros Hd Hc. finish_cases.
  - rewrite Hc in *. by destruct (is_Some_None (A:=nat)).
  - by rewrite Hd.
Qed.

Lemma finishTracking_outermost s h w :
  useSignalsDepth w = 1 → cleanUpFn w = Some h →
  finishTracking s w
  = (if cleanup_raises h (trace w) then Threw (CleanupRaised h) else Returned,
     set_useSignalsDepth 0
       (set_cleanUpFn None (with_store s (set_inRender false) (log (EvCleanup h) w)))).
Proof.
  intros Hd Hc. finish_cases.
  rewrite Hc. simpl. by rewrite Hd.
Qed.

Lemma finishTracking_inner s w :
  1 < useSignalsDepth w →
  finishTracking s w = (Returned, set_useSignalsDepth (useSignalsDepth w - 1) w).
Proof. intros Hd. finish_cases. Qed.

(** C6.  The assertions on the shared tracking state all throw, from the
    call that meets them, an error with a text of its own:
    [finishTracking] when the depth is below 1 (so at 0), and at depth 1
    when there is no handle; [startTracking] when there is a handle at
    depth 0 and when there is none at another depth. *)
Theorem tracking_assertions_throw s w :
  (useSignalsDepth w < 1 →
     fst (finishTracking s w) = Threw DepthShouldBeNonNegative)
  ∧ (useSignalsDepth w = 1 → cleanUpFn w = None →
     fst (finishTracking s w) = Threw CleanUpFnShouldBeDefined)
  ∧ (useSignalsDepth w = 0 → is_Some (cleanUpFn w) →
     fst (startTracking s w) = Threw CleanUpFnShouldBeUndefined)
  ∧ (useSignalsDepth w ≠ 0 → cleanUpFn w = None →
     fst (startTracking s w) = Threw CleanUpFnShouldBeDefined)
  ∧ message DepthShouldBeNonNegative = Some "useSignalsDepth should be non-negative"%string
  ∧ message CleanUpFnShouldBeDefined = Some "cleanUpFn should be defined with depth"%string
  ∧ message CleanUpFnShouldBeUndefined = Some "cleanUpFn should be undefined"%string.
Proof.
  repeat split.
  - intros H. by rewrite finishTracking_at_depth_0.
  - intros Hd Hc. by rewrite finishTracking_no_handle.
  - intros Hd Hc. by rewrite startTracking_handle_at_depth_0.
  - intros Hd Hc. by rewrite startTracking_no_handle_at_depth.
Qed.

(** ** The shared handle and the shared depth *)

Lemma startTracking_inv s w :
  tracking_inv w → tracking_inv (snd (startTracking s w)).
Proof.
  unfold tracking_inv. intros Hinv.
  destruct (entered_frame s w) as (Ed & Ec & _).
  destruct (decide (useSignalsDepth w = 0)) as [Hd|Hd];
    destruct (cleanUpFn w) as [h|] eqn:Hc.
  - rewrite startTracking_handle_at_depth_0 by (rewrite ?Hc; eauto).
    simpl. by rewrite Ed, Ec.
  - rewrite startTracking_outermost by done. simpl. split; [lia|eauto].
  - rewrite (startTracking_inner s h) by done. simpl. rewrite ?Ec, ?Ed.
    split; [intros _|eauto]. assert (0 < useSignalsDepth w) by (apply Hinv; eauto).
    lia.
  - rewrite startTracking_no_handle_at_depth by done.
    simpl. by rewrite Ed, Ec.
Qed.

Lemma finishTracking_inv s w :
  tracking_inv w → tracking_inv (snd (finishTracking s w)).
Proof.
  unfold tracking_inv. intros Hinv.
  destruct (decide (useSignalsDepth w < 1)) as [Hlt|Hge].
  { by rewrite finishTracking_at_depth_0. }
  destruct (decide (useSignalsDepth w = 1)) as [Hd|Hd].
  - destruct (cleanUpFn w) as [h|] eqn:Hc.
    + rewrite (finishTracking_outermost s h) by done. simpl.
      split; [intros [? [=]]|lia].
    + rewrite finishTracking_no_handle by done. simpl. rewrite ?Hc.
      split; [intros [? [=]]|lia].
  - rewrite finishTracking_inner by lia. simpl.
    split; [lia|]. intros _. apply Hinv. lia.
Qed.

Lemma run_inv cs : ∀ w, tracking_inv w → tracking_inv (snd (run cs w)).
Proof.
  induction cs as [|c cs IH]; intros w Hinv; [done|].
  simpl.
  assert (Hc : tracking_inv (snd (call c w))).
  { destruct c; [by apply startTracking_inv|by apply finishTracking_inv]. }
  destruct (call c w) as [[|e] w']; [by apply IH|done].
Qed.

(** C9.  The handle is there exactly when the depth is above 0: so it is
    when the module is loaded, so it stays over every [startTracking] and
    every [finishTracking] of any store that returns, and even over those
    that throw, hence after any succession of such calls on any stores. *)
Theorem tracking_inv_holds :
  tracking_inv initial
  ∧ (∀ s w w', tracking_inv w → startTracking s w = (Returned, w') → tracking_inv w')
  ∧ (∀ s w w', tracking_inv w → finishTracking s w = (Returned, w') → tracking_inv w')
  ∧ (∀ c w, tracking_inv w → tracking_inv (snd (call c w)))
  ∧ (∀ cs, tracking_inv (snd (run cs initial))).
Proof.
  assert (H0 : tracking_inv initial).
  { unfold tracking_inv; simpl. split; [intros [? [=]]|lia]. }
  split; [exact H0|]. split; [|split; [|split]].
  - intros s w w' Hinv Hs. apply (startTracking_inv s) in Hinv. by rewrite Hs in Hinv.
  - intros s w w' Hinv Hs. apply (finishTracking_inv s) in Hinv. by rewrite Hs in Hinv.
  - intros [s|s] w Hinv; [by apply startTracking_inv|by apply finishTracking_inv].
  - intros cs. by apply run_inv.
Qed.

(** ** Nested renders *)

Lemma run_app cs1 : ∀ cs2 w,
  run (cs1 ++ cs2) w
  = match run cs1 w with
    | (Returned, w') => run cs2 w'
    | thrown => thrown
    end.
Proof.
  induction cs1 as [|c cs1 IH]; intros cs2 w; [done|].
  simpl. destruct (call c w) as [[|e] w']; [apply IH|done].
Qed.

(** Inside an open region a render stack returns and leaves the depth,
    the handle and the trace as it found them. *)
Lemma run_nested_inside cs :
  nested cs → ∀ w h,
  0 < useSignalsDepth w → cleanUpFn w = Some h →
  fst (run cs w) = Returned
  ∧ useSignalsDepth (snd (run cs w)) = useSignalsDepth w
  ∧ cleanUpFn (snd (run cs w)) = Some h
  ∧ nextHandle (snd (run cs w)) = nextHandle w
  ∧ trace (snd (run cs w)) = trace w.
Proof.
  induction 1 as [|s inner rest Hin IHin Hrest IHrest]; intros w h Hd Hc; [done|].
  cbn [run call].
  rewrite (startTracking_inner s h) by (done || lia).
  destruct (entered_frame s w) as (Ed & Ec & Eh & Et).
  set (w1 := set_useSignalsDepth _ _).
  rewrite run_app.
  destruct (IHin w1 h) as (Io & Id & Ic & Ih & It);
    [simpl; lia|simpl; congruence|].
  destruct (run inner w1) as [o w2]. simpl in Io, Id, Ic, Ih, It. subst o.
  cbn [run call].
  rewrite finishTracking_inner by lia.
  set (w3 := set_useSignalsDepth _ _).
  destruct (IHrest w3 h) as (Ro & Rd & Rc & Rh & Rt);
    [simpl; lia|simpl; congruence|].
  repeat split; [done|..].
  - rewrite Rd. simpl. lia.
  - done.
  - rewrite Rh. simpl. congruence.
  - rewrite Rt. simpl. congruence.
Qed.

(** C4.  From a closed tracking state, the render of [a] with any render
    stack nested in it, however many units and however deep, calls the
    effect's [S()] once, for [a], and calls one cleanup function once:
    the very one that call returned.  The tracking state is closed
    again afterwards, and the whole returns unless that cleanup threw. *)
Theorem nested_tracking_one_region a inner w :
  nested inner →
  useSignalsDepth w = 0 → cleanUpFn w = None →
  trace (snd (run (CStart a :: inner ++ [CFinish a]) w))
  = trace w ++ [EvStartRecording a (nextHandle w); EvCleanup (nextHandle w)]
  ∧ fst (run (CStart a :: inner ++ [CFinish a]) w)
    = (if cleanup_raises (nextHandle w) (trace w ++ [EvStartRecording a (nextHandle w)])
       then Threw (CleanupRaised (nextHandle w)) else Returned)
  ∧ useSignalsDepth (snd (run (CStart a :: inner ++ [CFinish a]) w)) = 0
  ∧ cleanUpFn (snd (run (CStart a :: inner ++ [CFinish a]) w)) = None.
Proof.
  intros Hn Hd Hc.
  cbn [run call]. rewrite startTracking_outermost by done.
  destruct (entered_frame a w) as (Ed & Ec & Eh & Et).
  set (w1 := set_useSignalsDepth _ _).
  rewrite run_app.
  destruct (run_nested_inside inner Hn w1 (nextHandle w))
    as (Io & Id & Ic & Ih & It); [simpl; lia|done|].
  destruct (run inner w1) as [o w2]. simpl in Io, Id, Ic, Ih, It. subst o.
  cbn [run call].
  rewrite (finishTracking_outermost a (nextHandle w)) by done.
  rewrite It, Et.
  destruct (cleanup_raises _ _); simpl; rewrite It, Et, <- app_assoc; done.
Qed.

(** ** The reset scheduler *)

Lemma scheduleResetSyncRerenders_spec s w :
  microtasks (scheduleResetSyncRerenders s w)
  = microtasks w ++ (if isResetSyncRerendersScheduled w then [] else [ResetSyncRerenders])
  ∧ isResetSyncRerendersScheduled (scheduleResetSyncRerenders s w) = true
  ∧ s ∈ resetSyncRerendersSet (scheduleResetSyncRerenders s w)
  ∧ (∀ s', s' ∈ resetSyncRerendersSet w →
           s' ∈ resetSyncRerendersSet (scheduleResetSyncRerenders s w)).
Proof. forget_collaborators.
  unfold scheduleResetSyncRerenders.
  destruct (isResetSyncRerendersScheduled w) eqn:Hf;
    case_bool_decide as Hin; simpl in *; rewrite ?app_nil_r;
    repeat split; try done; try (intros s' Hs'); set_solver.
Qed.

Lemma schedule_all_spec ss : ∀ w,
  microtasks (schedule_all ss w)
  = microtasks w ++ (if isResetSyncRerendersScheduled w then []
                     else match ss with [] => [] | _ => [ResetSyncRerenders] end)
  ∧ (ss ≠ [] → isResetSyncRerendersScheduled (schedule_all ss w) = true)
  ∧ (∀ s, s ∈ ss ∨ s ∈ resetSyncRerendersSet w →
          s ∈ resetSyncRerendersSet (schedule_all ss w)).
Proof.
  induction ss as [|x ss IH]; intros w.
  { simpl. destruct (isResetSyncRerendersScheduled w); rewrite app_nil_r;
      repeat split; try done; intros s [Hs|Hs]; done || set_solver. }
  change (schedule_all (x :: ss) w)
    with (schedule_all ss (scheduleResetSyncRerenders x w)).
  destruct (scheduleResetSyncRerenders_spec x w) as (Hm & Hf & Hx & Hold).
  destruct (IH (scheduleResetSyncRerenders x w)) as (IHm & IHf & IHs).
  rewrite IHm, Hm, Hf, app_nil_r. split; [done|]. split.
  - intros _. destruct ss as [|y ss]; [done|]. by apply IHf.
  - intros s [Hs|Hs]; apply IHs; [|by right; apply Hold].
    apply elem_of_cons in Hs as [->|Hs]; [by right|by left].
Qed.

(** The loop of [resetSyncRerenders] over the registry. *)
Lemma reset_loop_store l : ∀ w s,
  store_of (foldl (λ acc x, store_resetSyncRerenders x acc) w l) s
  = if bool_decide (s ∈ l) then set_syncRerendersCount 0 (store_of w s)
    else store_of w s.
Proof. forget_collaborators.
  induction l as [|x l IH]; intros w s; [done|].
  simpl. rewrite IH. unfold store_resetSyncRerenders.
  destruct (decide (x = s)) as [->|Hne].
  - rewrite store_of_with_store_eq.
    rewrite (bool_decide_eq_true_2 (s ∈ s :: l)) by set_solver.
    by case_bool_decide.
  - rewrite store_of_with_store_ne by done.
    rewrite (bool_decide_ext (s ∈ x :: l) (s ∈ l)); [done|].
    rewrite elem_of_cons. split; [intros [?|?]; [congruence|done]|by right].
Qed.

Lemma reset_loop_frame l : ∀ w,
  let w' := foldl (λ acc x, store_resetSyncRerenders x acc) w l in
  isResetSyncRerendersScheduled w' = isResetSyncRerendersScheduled w
  ∧ microtasks w' = microtasks w
  ∧ useSignalsDepth w' = useSignalsDepth w
  ∧ cleanUpFn w' = cleanUpFn w
  ∧ trace w' = trace w.
Proof.
  induction l as [|x l IH]; intros w; [done|].
  simpl. destruct (IH (store_resetSyncRerenders x w)) as (-> & -> & -> & -> & ->).
  done.
Qed.

Lemma resetSyncRerenders_spec w :
  (∀ s, s ∈ resetSyncRerendersSet w →
        syncRerendersCount (store_of (resetSyncRerenders w) s) = 0)
  ∧ (∀ s, s ∉ resetSyncRerendersSet w →
        store_of (resetSyncRerenders w) s = store_of w s)
  ∧ resetSyncRerendersSet (resetSyncRerenders w) = []
  ∧ isResetSyncRerendersScheduled (resetSyncRerenders w) = false
  ∧ microtasks (resetSyncRerenders w) = microtasks w
  ∧ useSignalsDepth (resetSyncRerenders w) = useSignalsDepth w
  ∧ cleanUpFn (resetSyncRerenders w) = cleanUpFn w.
Proof.
  unfold resetSyncRerenders.
  change (store_of (set_resetSyncRerendersSet [] ?x)) with (store_of x).
  cbn [resetSyncRerendersSet isResetSyncRerendersScheduled microtasks
       useSignalsDepth cleanUpFn
       set_resetSyncRerendersSet set_isResetSyncRerendersScheduled].
  destruct (reset_loop_frame (resetSyncRerendersSet w)
              (set_isResetSyncRerendersScheduled false w))
    as (Hf & Hm & Hd & Hc & _).
  repeat split.
  - intros s Hs. rewrite reset_loop_store. by rewrite bool_decide_eq_true_2.
  - intros s Hs. rewrite reset_loop_store. by rewrite bool_decide_eq_false_2.
  - apply Hf.
  - apply Hm.
  - apply Hd.
  - apply Hc.
Qed.

(** C8.  Calls of [scheduleResetSyncRerenders], one or many, made while
    no reset is scheduled queue one microtask between them, and calls
    made after them and before it runs queue none.  When it runs, the
    count of every store in the registry, which holds all the stores
    the calls were made for, is 0, the registry is empty and no reset
    is scheduled any more. *)
Theorem reset_scheduled_once ss w :
  ss ≠ [] →
  isResetSyncRerendersScheduled w = false →
  microtasks (schedule_all ss w) = microtasks w ++ [ResetSyncRerenders]
  ∧ (∀ ss', microtasks (schedule_all ss' (schedule_all ss w))
            = microtasks (schedule_all ss w))
  ∧ (∀ s, s ∈ ss → s ∈ resetSyncRerendersSet (schedule_all ss w))
  ∧ (∀ s, s ∈ resetSyncRerendersSet (schedule_all ss w) →
          syncRerendersCount (store_of (resetSyncRerenders (schedule_all ss w)) s) = 0)
  ∧ resetSyncRerendersSet (resetSyncRerenders (schedule_all ss w)) = []
  ∧ isResetSyncRerendersScheduled (resetSyncRerenders (schedule_all ss w)) = false.
Proof.
  intros Hss Hf.
  destruct (schedule_all_spec ss w) as (Hm & Hf' & Hs).
  destruct (resetSyncRerenders_spec (schedule_all ss w)) as (Hz & _ & He & Hu & _).
  rewrite Hf in Hm. repeat split; try done.
  - rewrite Hm. by destruct ss.
  - intros ss'. destruct (schedule_all_spec ss' (schedule_all ss w)) as (-> & _).
    rewrite Hf' by done. by rewrite app_nil_r.
  - intros s Hin. apply Hs. by left.
Qed.

(** ** The ceiling on synchronous re-renders *)

Lemma entered_store s w :
  store_of (entered s w) s
  = set_syncRerendersCount (syncRerendersCount (store_of w s) + 1)
      (set_inRender true (store_of w s)).
Proof.
  unfold entered, store_of at 1.
  destruct (scheduleResetSyncRerenders_frame s
    (with_store s (λ st, set_syncRerendersCount (syncRerendersCount st + 1) st)
       (with_store s (set_inRender true) w))) as (-> & _).
  fold (store_of (with_store s (λ st, set_syncRerendersCount (syncRerendersCount st + 1) st)
       (with_store s (set_inRender true) w)) s).
  by rewrite !store_of_with_store_eq.
Qed.

Lemma entered_registered s w : s ∈ resetSyncRerendersSet (entered s w).
Proof.
  unfold entered.
  by destruct (scheduleResetSyncRerenders_spec s
    (with_store s (λ st, set_syncRerendersCount (syncRerendersCount st + 1) st)
       (with_store s (set_inRender true) w))) as (_ & _ & ? & _).
Qed.

(** A render of [s], from start to finish, outside any other. *)
Lemma render_outermost s w :
  useSignalsDepth w = 0 → cleanUpFn w = None →
  fst (startTracking s w) = Returned
  ∧ store_of (snd (startTracking s w)) s
    = set_syncRerendersCount (syncRerendersCount (store_of w s) + 1)
        (set_inRender true (store_of w s))
  ∧ store_of (snd (finishTracking s (snd (startTracking s w)))) s
    = set_syncRerendersCount (syncRerendersCount (store_of w s) + 1)
        (set_inRender false (store_of w s)).
Proof.
  intros Hd Hc. rewrite startTracking_outermost by done. cbn [fst snd].
  assert (Hst : ∀ x, store_of (set_useSignalsDepth 1
            (set_cleanUpFn (Some (nextHandle w))
               (log (EvStartRecording s (nextHandle w)) (set_nextHandle x (entered s w))))) s
          = store_of (entered s w) s) by done.
  split; [done|]. split; [by rewrite Hst, entered_store|].
  rewrite (finishTracking_outermost s (nextHandle w)) by done. cbn [snd].
  change (store_of (set_useSignalsDepth 0 (set_cleanUpFn None ?x)) s) with (store_of x s).
  rewrite store_of_with_store_eq.
  change (store_of (log ?e ?x) s) with (store_of x s).
  by rewrite Hst, entered_store.
Qed.

Lemma startTracking_sets_inRender s w :
  inRender (store_of (snd (startTracking s w)) s) = true.
Proof.
  assert (He : inRender (store_of (entered s w) s) = true)
    by (by rewrite entered_store).
  destruct (decide (useSignalsDepth w = 0)) as [Hd|Hd];
    destruct (cleanUpFn w) as [h|] eqn:Hc.
  - by rewrite startTracking_handle_at_depth_0 by (rewrite ?Hc; eauto).
  - by rewrite startTracking_outermost.
  - by rewrite (startTracking_inner s h).
  - by rewrite startTracking_no_handle_at_depth.
Qed.

(** C2.  A dependency change that reaches a store while its [inRender]
    is set changes nothing at all: not the version, not the trace of
    calls made to the subscriber, and the handler returns.  The flag is
    set by every [startTracking] of the store, so this is what a change
    right after it meets. *)
Theorem change_during_render_ignored s w :
  inRender (store_of w s) = true →
  onDepsChange s w = (Returned, w)
  ∧ getSnapshot s (snd (onDepsChange s w)) = getSnapshot s w
  ∧ notify_count s (trace (snd (onDepsChange s w))) = notify_count s (trace w)
  ∧ ∀ w0, onDepsChange s (snd (startTracking s w0))
          = (Returned, snd (startTracking s w0)).
Proof.
  intros H. rewrite (onDepsChange_in_render s w H). repeat split.
  intros w0. apply onDepsChange_in_render, startTracking_sets_inRender.
Qed.

(** ** What each operation does to the stores *)

Lemma entered_store_ne s s' w :
  s ≠ s' → store_of (entered s w) s' = store_of w s'.
Proof.
  intros Hne. unfold entered, store_of at 1.
  destruct (scheduleResetSyncRerenders_frame s
    (with_store s (λ st, set_syncRerendersCount (syncRerendersCount st + 1) st)
       (with_store s (set_inRender true) w))) as (-> & _).
  fold (store_of (with_store s (λ st, set_syncRerendersCount (syncRerendersCount st + 1) st)
       (with_store s (set_inRender true) w)) s').
  by rewrite !store_of_with_store_ne.
Qed.

(** Returning or throwing, [startTracking] has marked and counted. *)
Lemma startTracking_store s w s' :
  store_of (snd (startTracking s w)) s' = store_of (entered s w) s'.
Proof.
  destruct (decide (useSignalsDepth w = 0)) as [Hd|Hd];
    destruct (cleanUpFn w) as [h|] eqn:Hc.
  - by rewrite startTracking_handle_at_depth_0 by (rewrite ?Hc; eauto).
  - by rewrite startTracking_outermost.
  - by rewrite (startTracking_inner s h).
  - by rewrite startTracking_no_handle_at_depth.
Qed.

Lemma startTracking_registry s w :
  isResetSyncRerendersScheduled (snd (startTracking s w))
  = isResetSyncRerendersScheduled (entered s w)
  ∧ resetSyncRerendersSet (snd (startTracking s w)) = resetSyncRerendersSet (entered s w)
  ∧ microtasks (snd (startTracking s w)) = microtasks (entered s w).
Proof.
  destruct (decide (useSignalsDepth w = 0)) as [Hd|Hd];
    destruct (cleanUpFn w) as [h|] eqn:Hc.
  - by rewrite startTracking_handle_at_depth_0 by (rewrite ?Hc; eauto).
  - by rewrite startTracking_outermost.
  - by rewrite (startTracking_inner s h).
  - by rewrite startTracking_no_handle_at_depth.
Qed.

Lemma entered_registry s w :
  isResetSyncRerendersScheduled (entered s w) = true
  ∧ microtasks (entered s w)
    = microtasks w ++ (if isResetSyncRerendersScheduled w then [] else [ResetSyncRerenders])
  ∧ resetSyncRerendersSet (entered s w)
    = (if bool_decide (s ∈ resetSyncRerendersSet w) then resetSyncRerendersSet w
       else resetSyncRerendersSet w ++ [s]).
Proof.
  unfold entered, scheduleResetSyncRerenders. simpl.
  destruct (isResetSyncRerendersScheduled w) eqn:Hf; simpl;
    case_bool_decide; simpl; rewrite ?app_nil_r; done.
Qed.

(** [finishTracking] writes one field of one store, and that only when it
    closes the region. *)
Lemma finishTracking_store s w s' :
  store_of (snd (finishTracking s w)) s'
  = if bool_decide (s' = s ∧ useSignalsDepth w = 1 ∧ is_Some (cleanUpFn w))
    then set_inRender false (store_of w s)
    else store_of w s'.
Proof.
  destruct (decide (useSignalsDepth w < 1)) as [Hlt|Hge].
  { rewrite finishTracking_at_depth_0 by done.
    rewrite bool_decide_eq_false_2; [done|]. intros (_ & ? & _). lia. }
  destruct (decide (useSignalsDepth w = 1)) as [Hd|Hd].
  - destruct (cleanUpFn w) as [h|] eqn:Hc.
    + rewrite (finishTracking_outermost s h) by done. cbn [snd].
      change (store_of (set_useSignalsDepth 0 (set_cleanUpFn None ?x)) s') with (store_of x s').
      destruct (decide (s' = s)) as [->|Hne].
      * rewrite store_of_with_store_eq. by rewrite bool_decide_eq_true_2 by eauto.
      * rewrite store_of_with_store_ne by done.
        rewrite bool_decide_eq_false_2; [done|]. by intros (? & _).
    + rewrite finishTracking_no_handle by done.
      rewrite bool_decide_eq_false_2; [done|]. intros (_ & _ & [? [=]]).
  - rewrite finishTracking_inner by lia.
    rewrite bool_decide_eq_false_2; [done|]. by intros (_ & ? & _).
Qed.

Lemma finishTracking_registry s w :
  isResetSyncRerendersScheduled (snd (finishTracking s w)) = isResetSyncRerendersScheduled w
  ∧ resetSyncRerendersSet (snd (finishTracking s w)) = resetSyncRerendersSet w
  ∧ microtasks (snd (finishTracking s w)) = microtasks w.
Proof.
  destruct (decide (useSignalsDepth w < 1)) as [Hlt|Hge].
  { by rewrite finishTracking_at_depth_0. }
  destruct (decide (useSignalsDepth w = 1)) as [Hd|Hd].
  - destruct (cleanUpFn w) as [h|] eqn:Hc.
    + by rewrite (finishTracking_outermost s h).
    + by rewrite finishTracking_no_handle.
  - by rewrite finishTracking_inner by lia.
Qed.

(** The handler writes the version of its store, calls the subscriber
    and does nothing else. *)
Lemma onDepsChange_frame s w :
  (∀ s', s' ≠ s → store_of (snd (onDepsChange s w)) s' = store_of w s')
  ∧ (store_of (snd (onDepsChange s w)) s = store_of w s
     ∨ store_of (snd (onDepsChange s w)) s
       = set_version (toInt32 (version (store_of w s) + 1)) (store_of w s))
  ∧ useSignalsDepth (snd (onDepsChange s w)) = useSignalsDepth w
  ∧ cleanUpFn (snd (onDepsChange s w)) = cleanUpFn w
  ∧ isResetSyncRerendersScheduled (snd (onDepsChange s w)) = isResetSyncRerendersScheduled w
  ∧ resetSyncRerendersSet (snd (onDepsChange s w)) = resetSyncRerendersSet w
  ∧ microtasks (snd (onDepsChange s w)) = microtasks w
  ∧ nextHandle (snd (onDepsChange s w)) = nextHandle w.
Proof.
  unfold onDepsChange.
  destruct (inRender (store_of w s)); [by repeat split; eauto|].
  case_bool_decide; [by repeat split; eauto|].
  assert (Hne : ∀ s', s' ≠ s →
    store_of (with_store s (set_version (toInt32 (version (store_of w s) + 1))) w) s'
    = store_of w s') by (intros; by apply store_of_with_store_ne).
  assert (Heq :
    store_of (with_store s (set_version (toInt32 (version (store_of w s) + 1))) w) s
    = set_version (toInt32 (version (store_of w s) + 1)) (store_of w s))
    by apply store_of_with_store_eq.
  destruct (onChangeNotifyReact _); cbn [snd];
    change (store_of (log ?e ?x)) with (store_of x);
    repeat split; eauto.
Qed.

Lemma subscribe_store s cb w s' :
  store_of (subscribe s cb w) s'
  = if bool_decide (s' = s) then set_onChangeNotifyReact (Some cb) (store_of w s)
    else store_of w s'.
Proof.
  unfold subscribe. case_bool_decide as H; [subst|].
  - apply store_of_with_store_eq.
  - by apply store_of_with_store_ne.
Qed.

Lemma unsubscribe_store s w s' :
  store_of (unsubscribe s w) s'
  = if bool_decide (s' = s)
    then set_effectDisposed true (set_onChangeNotifyReact None
           (set_version (toInt32 (version (store_of w s) + 1)) (store_of w s)))
    else store_of w s'.
Proof.
  unfold unsubscribe.
  change (store_of (log ?e ?x) s') with (store_of x s').
  case_bool_decide as H; [subst|].
  - by rewrite !store_of_with_store_eq.
  - by rewrite !store_of_with_store_ne.
Qed.

Lemma resetSyncRerenders_store w s :
  store_of (resetSyncRerenders w) s
  = if bool_decide (s ∈ resetSyncRerendersSet w)
    then set_syncRerendersCount 0 (store_of w s)
    else store_of w s.
Proof.
  unfold resetSyncRerenders.
  change (store_of (set_resetSyncRerendersSet [] ?x)) with (store_of x).
  by rewrite reset_loop_store.
Qed.

Lemma runMicrotask_unfold w :
  runMicrotask w
  = match microtasks w with
    | [] => w
    | _ :: q => resetSyncRerenders (set_microtasks q w)
    end.
Proof. unfold runMicrotask. by destruct (microtasks w) as [|[] q]. Qed.

(** ** What every reachable world satisfies *)

Lemma startTracking_depth s w :
  useSignalsDepth (snd (startTracking s w)) = useSignalsDepth w
  ∨ useSignalsDepth (snd (startTracking s w)) = useSignalsDepth w + 1.
Proof.
  destruct (entered_frame s w) as (Ed & _).
  destruct (decide (useSignalsDepth w = 0)) as [Hd|Hd];
    destruct (cleanUpFn w) as [h|] eqn:Hc.
  - rewrite startTracking_handle_at_depth_0 by (rewrite ?Hc; eauto). by left.
  - rewrite startTracking_outermost by done. right. simpl. lia.
  - rewrite (startTracking_inner s h) by done. by right.
  - rewrite startTracking_no_handle_at_depth by done. by left.
Qed.

Lemma finishTracking_depth s w :
  useSignalsDepth (snd (finishTracking s w))
  = if bool_decide (useSignalsDepth w < 1) then useSignalsDepth w
    else useSignalsDepth w - 1.
Proof.
  case_bool_decide as Hlt.
  { by rewrite finishTracking_at_depth_0. }
  destruct (decide (useSignalsDepth w = 1)) as [Hd|Hd].
  - destruct (cleanUpFn w) as [h|] eqn:Hc.
    + rewrite (finishTracking_outermost s h) by done. simpl. lia.
    + rewrite finishTracking_no_handle by done. simpl. lia.
  - by rewrite finishTracking_inner by lia.
Qed.

Lemma coherent_initial : coherent initial.
Proof.
  assert (Hst : ∀ s, store_of initial s = createEffectStore)
    by (intros s; unfold store_of; simpl; by rewrite lookup_total_empty).
  unfold coherent, tracking_inv.
  split; [|split; [|split; [|split; [|split; [|split; [|split]]]]]];
    try done; try (intros s; rewrite Hst; simpl; lia).
  - simpl. split; [intros [? [=]]|lia].
  - constructor.
Qed.

Lemma coherent_startTracking s w :
  coherent w → coherent (snd (startTracking s w)).
Proof.
  intros (Hv & Hd & Hi & Hm & Hr & Hn & Hc0 & Hreg).
  destruct (startTracking_registry s w) as (Ef & Er & Em).
  destruct (entered_registry s w) as (Ef' & Em' & Er').
  assert (Hst : ∀ s', store_of (snd (startTracking s w)) s' = store_of w s'
                     ∨ s' = s ∧ store_of (snd (startTracking s w)) s
                       = set_syncRerendersCount (syncRerendersCount (store_of w s) + 1)
                           (set_inRender true (store_of w s))).
  { intros s'. destruct (decide (s = s')) as [<-|Hne].
    - right. by rewrite startTracking_store, entered_store.
    - left. rewrite startTracking_store. by apply entered_store_ne. }
  unfold coherent. rewrite Ef, Er, Em, Ef', Em', Er'.
  split; [|split; [|split; [|split; [|split; [|split; [|split]]]]]].
  - intros s'. destruct (Hst s') as [->|[-> ->]]; [apply Hv|simpl; apply Hv].
  - destruct (startTracking_depth s w) as [->| ->]; lia.
  - by apply startTracking_inv.
  - rewrite Hm. by destruct (isResetSyncRerendersScheduled w).
  - done.
  - case_bool_decide as Hin; [done|].
    apply NoDup_app. split; [done|]. split; [|apply NoDup_singleton].
    intros x Hx Hx'. apply list_elem_of_singleton in Hx'. by subst.
  - intros s'. destruct (Hst s') as [->|[-> ->]]; [apply Hc0|].
    simpl. specialize (Hc0 s). lia.
  - intros s' Hs'. case_bool_decide as Hin.
    + destruct (Hst s') as [Heq|[-> _]]; [|done].
      apply Hreg. by rewrite <- Heq.
    + apply elem_of_app. destruct (Hst s') as [Heq|[-> _]].
      * left. apply Hreg. by rewrite <- Heq.
      * right. by apply list_elem_of_singleton.
Qed.

Lemma coherent_finishTracking s w :
  coherent w → coherent (snd (finishTracking s w)).
Proof.
  intros (Hv & Hd & Hi & Hm & Hr & Hn & Hc0 & Hreg).
  destruct (finishTracking_registry s w) as (Ef & Er & Em).
  assert (Hst : ∀ s', store_of (snd (finishTracking s w)) s' = store_of w s'
                     ∨ store_of (snd (finishTracking s w)) s'
                       = set_inRender false (store_of w s')).
  { intros s'. rewrite finishTracking_store.
    case_bool_decide as H; [right; by destruct H as (-> & _)|by left]. }
  unfold coherent. rewrite Ef, Er, Em.
  split; [|split; [|split; [|split; [|split; [|split; [|split]]]]]]; try done.
  - intros s'. destruct (Hst s') as [->| ->]; apply Hv.
  - rewrite finishTracking_depth. case_bool_decide; lia.
  - by apply finishTracking_inv.
  - intros s'. destruct (Hst s') as [->| ->]; apply Hc0.
  - intros s'. destruct (Hst s') as [->| ->]; apply Hreg.
Qed.

Lemma coherent_onDepsChange s w :
  coherent w → coherent (snd (onDepsChange s w)).
Proof.
  intros (Hv & Hd & Hi & Hm & Hr & Hn & Hc0 & Hreg).
  destruct (onDepsChange_frame s w) as (Hne & Heq & Ed & Ec & Ef & Er & Em & _).
  assert (Hst : ∀ s', store_of (snd (onDepsChange s w)) s' = store_of w s'
                     ∨ store_of (snd (onDepsChange s w)) s'
                       = set_version (toInt32 (version (store_of w s') + 1)) (store_of w s')).
  { intros s'. destruct (decide (s' = s)) as [->|H]; [done|left; by apply Hne]. }
  unfold coherent, tracking_inv. rewrite Ed, Ec, Ef, Er, Em.
  split; [|split; [|split; [|split; [|split; [|split; [|split]]]]]]; try done.
  - intros s'. destruct (Hst s') as [->| ->]; [apply Hv|apply toInt32_range].
  - intros s'. destruct (Hst s') as [->| ->]; apply Hc0.
  - intros s'. destruct (Hst s') as [->| ->]; apply Hreg.
Qed.

Lemma coherent_subscribe s cb w : coherent w → coherent (subscribe s cb w).
Proof.
  intros (Hv & Hd & Hi & Hm & Hr & Hn & Hc0 & Hreg).
  unfold coherent. change (tracking_inv (subscribe s cb w)) with (tracking_inv w).
  split; [|split; [|split; [|split; [|split; [|split; [|split]]]]]]; try done.
  - intros s'. rewrite subscribe_store. case_bool_decide; [simpl|]; apply Hv.
  - intros s'. rewrite subscribe_store. case_bool_decide; [simpl|]; apply Hc0.
  - intros s'. rewrite subscribe_store. case_bool_decide as H; [subst; simpl|]; apply Hreg.
Qed.

Lemma coherent_unsubscribe s w : coherent w → coherent (unsubscribe s w).
Proof.
  intros (Hv & Hd & Hi & Hm & Hr & Hn & Hc0 & Hreg).
  unfold coherent. change (tracking_inv (unsubscribe s w)) with (tracking_inv w).
  split; [|split; [|split; [|split; [|split; [|split; [|split]]]]]]; try done.
  - intros s'. rewrite unsubscribe_store.
    case_bool_decide; [simpl; apply toInt32_range|apply Hv].
  - intros s'. rewrite unsubscribe_store. case_bool_decide; [simpl|]; apply Hc0.
  - intros s'. rewrite unsubscribe_store. case_bool_decide as H; [subst; simpl|]; apply Hreg.
Qed.

(** After the reset every count is 0, not only those of the registry,
    when every store with a count is in the registry. *)
Lemma resetSyncRerenders_all_zero w :
  (∀ s, syncRerendersCount (store_of w s) ≠ 0 → s ∈ resetSyncRerendersSet w) →
  ∀ s, syncRerendersCount (store_of (resetSyncRerenders w) s) = 0.
Proof.
  intros Hreg s. rewrite resetSyncRerenders_store. case_bool_decide as Hin; [done|].
  destruct (decide (syncRerendersCount (store_of w s) = 0)) as [|Hnz]; [done|].
  by apply Hreg in Hnz.
Qed.

Lemma coherent_runMicrotask w : coherent w → coherent (runMicrotask w).
Proof.
  intros Hc. pose proof Hc as (Hv & Hd & Hi & Hm & Hr & Hn & Hc0 & Hreg).
  rewrite runMicrotask_unfold.
  destruct (microtasks w) as [|t q] eqn:Hq; [done|].
  assert (Hf : isResetSyncRerendersScheduled w = true)
    by (by destruct (isResetSyncRerendersScheduled w)).
  assert (q = []) as -> by (rewrite Hf in Hm; congruence).
  destruct (resetSyncRerenders_spec (set_microtasks [] w))
    as (_ & _ & He & Hf' & Hm' & Hd' & Hc').
  pose proof (resetSyncRerenders_all_zero (set_microtasks [] w) Hreg) as Hz.
  unfold coherent, tracking_inv. rewrite He, Hf', Hm', Hd', Hc'.
  split; [|split; [|split; [|split; [|split; [|split; [|split]]]]]]; try done.
  - intros s. rewrite resetSyncRerenders_store.
    case_bool_decide; [simpl|]; apply Hv.
  - constructor.
  - intros s. by rewrite Hz.
  - intros s. by rewrite Hz.
Qed.

Lemma coherent_perform o w : coherent w → coherent (snd (perform o w)).
Proof.
  destruct o; simpl.
  - apply coherent_startTracking.
  - apply coherent_finishTracking.
  - apply coherent_finishTracking.
  - apply coherent_subscribe.
  - apply coherent_unsubscribe.
  - apply coherent_onDepsChange.
  - apply coherent_runMicrotask.
Qed.

Lemma coherent_perform_all os : ∀ w, coherent w → coherent (perform_all os w).
Proof.
  induction os as [|o os IH]; intros w Hc; [done|].
  apply IH. by apply coherent_perform.
Qed.

(** ** Further properties of the module *)

(** X1.  Whatever is done to the module, in whatever order, the snapshot
    of every store is a signed 32-bit integer: it starts at 0 and is only
    ever written through [| 0]. *)
Theorem snapshot_is_int32 os s :
  - 2 ^ 31 ≤ getSnapshot s (perform_all os initial) < 2 ^ 31.
Proof.
  destruct (coherent_perform_all os initial coherent_initial) as (Hv & _).
  apply Hv.
Qed.

(** X2.  The shared depth never goes below 0, whatever is done, and a
    [finishTracking] too many leaves it where it is. *)
Theorem depth_never_negative os s :
  0 ≤ useSignalsDepth (perform_all os initial)
  ∧ 0 ≤ useSignalsDepth (snd (finishTracking s (perform_all os initial)))
  ∧ (useSignalsDepth (perform_all os initial) = 0 →
     finishTracking s (perform_all os initial)
     = (Threw DepthShouldBeNonNegative, perform_all os initial)).
Proof.
  pose proof (coherent_perform_all os initial coherent_initial) as Hc.
  pose proof (coherent_finishTracking s _ Hc) as (_ & Hd' & _).
  destruct Hc as (_ & Hd & _).
  split; [done|]. split; [done|].
  intros H0. apply finishTracking_at_depth_0. lia.
Qed.

(** X3.  Whatever is done, the microtask queue holds one reset when a
    reset is marked as scheduled and is empty otherwise, the registry has
    no store twice, is empty unless a reset is scheduled, and holds every
    store whose count is not 0. *)
Theorem at_most_one_reset_pending os :
  microtasks (perform_all os initial)
  = (if isResetSyncRerendersScheduled (perform_all os initial)
     then [ResetSyncRerenders] else [])
  ∧ (length (microtasks (perform_all os initial)) ≤ 1)%nat
  ∧ NoDup (resetSyncRerendersSet (perform_all os initial))
  ∧ (resetSyncRerendersSet (perform_all os initial) ≠ [] →
     isResetSyncRerendersScheduled (perform_all os initial) = true)
  ∧ (∀ s, syncRerendersCount (store_of (perform_all os initial) s) ≠ 0 →
          s ∈ resetSyncRerendersSet (perform_all os initial)).
Proof.
  destruct (coherent_perform_all os initial coherent_initial)
    as (_ & _ & _ & Hm & Hr & Hn & _ & Hreg).
  repeat split; try done.
  rewrite Hm. destruct (isResetSyncRerendersScheduled _); simpl; lia.
Qed.

(** X4.  Whatever was done before, once the event loop has run the
    oldest microtask the count of every store is 0, of those rendered
    since the last reset and of all others, the registry is empty, no
    reset is scheduled and none is queued. *)
Theorem microtask_resets_every_store os s :
  syncRerendersCount (store_of (runMicrotask (perform_all os initial)) s) = 0
  ∧ resetSyncRerendersSet (runMicrotask (perform_all os initial)) = []
  ∧ isResetSyncRerendersScheduled (runMicrotask (perform_all os initial)) = false
  ∧ microtasks (runMicrotask (perform_all os initial)) = [].
Proof.
  pose proof (coherent_perform_all os initial coherent_initial) as Hc.
  pose proof (coherent_runMicrotask _ Hc) as (_ & _ & _ & Hm' & Hr' & _ & _ & Hreg').
  destruct Hc as (_ & _ & _ & Hm & Hr & _ & _ & Hreg).
  set (w := perform_all os initial) in *.
  assert (Hf : isResetSyncRerendersScheduled (runMicrotask w) = false).
  { rewrite runMicrotask_unfold.
    destruct (microtasks w) as [|t q] eqn:Hq.
    - by destruct (isResetSyncRerendersScheduled w).
    - by destruct (resetSyncRerenders_spec (set_microtasks q w)) as (_ & _ & _ & ? & _). }
  assert (He : resetSyncRerendersSet (runMicrotask w) = []).
  { destruct (resetSyncRerendersSet (runMicrotask w)) as [|x l] eqn:Hl; [done|].
    rewrite Hr' in Hf; done. }
  split; [|split; [done|split; [done|]]].
  - destruct (decide (syncRerendersCount (store_of (runMicrotask w) s) = 0)) as [|Hnz];
      [done|]. apply Hreg' in Hnz. rewrite He in Hnz. by apply elem_of_nil in Hnz.
  - by rewrite Hm', Hf.
Qed.

(** X5.  Rendering never changes what a snapshot reads: neither
    [startTracking] nor [finishTracking], returning or throwing, nor
    [subscribe] nor the reset changes the snapshot of any store, and the
    handler and the function [subscribe] returned change that of their
    own store only. *)
Theorem snapshot_stable s s' cb w :
  getSnapshot s' (snd (startTracking s w)) = getSnapshot s' w
  ∧ getSnapshot s' (snd (finishTracking s w)) = getSnapshot s' w
  ∧ getSnapshot s' (subscribe s cb w) = getSnapshot s' w
  ∧ getSnapshot s' (resetSyncRerenders w) = getSnapshot s' w
  ∧ getSnapshot s' (runMicrotask w) = getSnapshot s' w
  ∧ (s' ≠ s → getSnapshot s' (snd (onDepsChange s w)) = getSnapshot s' w)
  ∧ (s' ≠ s → getSnapshot s' (unsubscribe s w) = getSnapshot s' w).
Proof.
  unfold getSnapshot.
  assert (Hreset : ∀ w0, version (store_of (resetSyncRerenders w0) s')
                         = version (store_of w0 s')).
  { intros w0. rewrite resetSyncRerenders_store. by case_bool_decide. }
  split; [|split; [|split; [|split; [|split; [|split]]]]].
  - rewrite startTracking_store. destruct (decide (s = s')) as [<-|Hne].
    + by rewrite entered_store.
    + by rewrite entered_store_ne.
  - rewrite finishTracking_store.
    case_bool_decide as H; [by destruct H as (-> & _)|done].
  - rewrite subscribe_store. case_bool_decide; by subst.
  - apply Hreset.
  - rewrite runMicrotask_unfold. destruct (microtasks w); [done|].
    by rewrite Hreset.
  - intros Hne. destruct (onDepsChange_frame s w) as (H & _). by rewrite H.
  - intros Hne. rewrite unsubscribe_store. by rewrite bool_decide_eq_false_2.
Qed.

(** X6.  The handler never touches anything but the version of its own
    store and the subscriber it calls: the tracking depth, the handle, the
    registry, the flag, the queue, the other stores and the other fields
    of its store are as before, whatever its outcome.  What it adds to
    the trace is exactly one call of the store's subscriber, seeing the
    version plus one, when the store is not rendering, is not above the
    ceiling and has a subscriber, and nothing at all otherwise. *)
Theorem handler_writes_version_only s w :
  useSignalsDepth (snd (onDepsChange s w)) = useSignalsDepth w
  ∧ cleanUpFn (snd (onDepsChange s w)) = cleanUpFn w
  ∧ resetSyncRerendersSet (snd (onDepsChange s w)) = resetSyncRerendersSet w
  ∧ isResetSyncRerendersScheduled (snd (onDepsChange s w))
    = isResetSyncRerendersScheduled w
  ∧ microtasks (snd (onDepsChange s w)) = microtasks w
  ∧ nextHandle (snd (onDepsChange s w)) = nextHandle w
  ∧ inRender (store_of (snd (onDepsChange s w)) s) = inRender (store_of w s)
  ∧ syncRerendersCount (store_of (snd (onDepsChange s w)) s)
    = syncRerendersCount (store_of w s)
  ∧ onChangeNotifyReact (store_of (snd (onDepsChange s w)) s)
    = onChangeNotifyReact (store_of w s)
  ∧ effectDisposed (store_of (snd (onDepsChange s w)) s)
    = effectDisposed (store_of w s)
  ∧ (∀ s', s' ≠ s → store_of (snd (onDepsChange s w)) s' = store_of w s')
  ∧ trace (snd (onDepsChange s w))
    = trace w
      ++ (if inRender (store_of w s) then []
          else if bool_decide (maxSyncRerenders < syncRerendersCount (store_of w s))
          then []
          else match onChangeNotifyReact (store_of w s) with
               | Some cb => [EvNotify s cb (toInt32 (getSnapshot s w + 1))]
               | None => []
               end)
  ∧ (notify_count s (trace (snd (onDepsChange s w)))
     ≤ notify_count s (trace w) + 1)%nat.
Proof.
  destruct (onDepsChange_frame s w) as (Hne & Hs & Ed & Ec & Ef & Er & Em & Eh).
  assert (Ht : trace (snd (onDepsChange s w))
    = trace w
      ++ (if inRender (store_of w s) then []
          else if bool_decide (maxSyncRerenders < syncRerendersCount (store_of w s))
          then []
          else match onChangeNotifyReact (store_of w s) with
               | Some cb => [EvNotify s cb (toInt32 (getSnapshot s w + 1))]
               | None => []
               end)).
  { destruct (inRender (store_of w s)) eqn:Hr.
    { by rewrite onDepsChange_in_render, app_nil_r. }
    case_bool_decide as Hc.
    { by rewrite onDepsChange_too_many, app_nil_r. }
    destruct (onChangeNotifyReact (store_of w s)) as [cb|] eqn:Hcb.
    - by rewrite (onDepsChange_notifies s cb) by (done || lia).
    - by rewrite onDepsChange_silent, app_nil_r by (done || lia). }
  split; [done|]. split; [done|]. split; [done|]. split; [done|].
  split; [done|]. split; [done|].
  split; [by destruct Hs as [->| ->]|]. split; [by destruct Hs as [->| ->]|].
  split; [by destruct Hs as [->| ->]|]. split; [by destruct Hs as [->| ->]|].
  split; [done|]. split; [done|].
  rewrite Ht, notify_count_app.
  assert (H0 : notify_count s [] = 0%nat) by done.
  destruct (inRender (store_of w s)); [lia|].
  case_bool_decide; [lia|].
  destruct (onChangeNotifyReact (store_of w s)); [|lia].
  rewrite notify_count_EvNotify. lia.
Qed.

(** A [startTracking] that throws has done its bookkeeping all the
    same: the store is marked as rendering, the render is counted and the
    store is registered for the reset, while the depth, the handle and
    the trace are as before. *)
Lemma startTracking_throw_has_counted s w e :
  fst (startTracking s w) = Threw e →
  inRender (store_of (snd (startTracking s w)) s) = true
  ∧ syncRerendersCount (store_of (snd (startTracking s w)) s)
    = syncRerendersCount (store_of w s) + 1
  ∧ s ∈ resetSyncRerendersSet (snd (startTracking s w))
  ∧ useSignalsDepth (snd (startTracking s w)) = useSignalsDepth w
  ∧ cleanUpFn (snd (startTracking s w)) = cleanUpFn w
  ∧ trace (snd (startTracking s w)) = trace w
  ∧ onDepsChange s (snd (startTracking s w)) = (Returned, snd (startTracking s w)).
Proof.
  intros Hthrow.
  destruct (entered_frame s w) as (Ed & Ec & _ & Et).
  destruct (startTracking_registry s w) as (_ & Er & _).
  assert (Hw : snd (startTracking s w) = entered s w).
  { destruct (decide (useSignalsDepth w = 0)) as [Hd|Hd];
      destruct (cleanUpFn w) as [h|] eqn:Hc.
    - by rewrite startTracking_handle_at_depth_0 by (rewrite ?Hc; eauto).
    - by rewrite startTracking_outermost in Hthrow.
    - by rewrite (startTracking_inner s h) in Hthrow.
    - by rewrite startTracking_no_handle_at_depth. }
  rewrite Hw, entered_store. simpl.
  repeat split; try done.
  - apply entered_registered.
  - apply onDepsChange_in_render. by rewrite entered_store.
Qed.

(** X8.  The three ways [finishTracking] throws and what each leaves.
    Below depth 1 the world is untouched.  At depth 1 without a handle
    the depth has gone to 0 all the same and nothing else has changed.
    When the cleanup function throws, the [finally] blocks have run: the
    store is no longer rendering, the handle is dropped and the depth is
    0. *)
Theorem finishTracking_throw_state s w e :
  fst (finishTracking s w) = Threw e →
  (e = DepthShouldBeNonNegative ∧ useSignalsDepth w < 1
   ∧ snd (finishTracking s w) = w)
  ∨ (e = CleanUpFnShouldBeDefined ∧ useSignalsDepth w = 1 ∧ cleanUpFn w = None
     ∧ snd (finishTracking s w) = set_useSignalsDepth 0 w)
  ∨ (∃ h, e = CleanupRaised h ∧ useSignalsDepth w = 1 ∧ cleanUpFn w = Some h
          ∧ cleanup_raises h (trace w) = true
          ∧ useSignalsDepth (snd (finishTracking s w)) = 0
          ∧ cleanUpFn (snd (finishTracking s w)) = None
          ∧ inRender (store_of (snd (finishTracking s w)) s) = false
          ∧ trace (snd (finishTracking s w)) = trace w ++ [EvCleanup h]).
Proof.
  intros Hthrow.
  destruct (decide (useSignalsDepth w < 1)) as [Hlt|Hge].
  { rewrite finishTracking_at_depth_0 in * by done.
    left. by injection Hthrow as <-. }
  destruct (decide (useSignalsDepth w = 1)) as [Hd|Hd].
  - destruct (cleanUpFn w) as [h|] eqn:Hc.
    + pose proof (finishTracking_store s w s) as Hst.
      rewrite bool_decide_eq_true_2 in Hst by (rewrite Hc; eauto).
      rewrite Hst. clear Hst.
      rewrite (finishTracking_outermost s h) in * by done.
      right; right. exists h. cbn [fst snd] in *.
      destruct (cleanup_raises h (trace w)); [|done].
      injection Hthrow as <-. done.
    + rewrite finishTracking_no_handle in * by done.
      right; left. by injection Hthrow as <-.
  - by rewrite finishTracking_inner in Hthrow by lia.
Qed.

(** One render of [s] outside any other, when its cleanup returns. *)
Lemma cycle_once s w :
  useSignalsDepth w = 0 → cleanUpFn w = None →
  cleanup_raises (nextHandle w) (trace w ++ [EvStartRecording s (nextHandle w)]) = false →
  fst (run [CStart s; CFinish s] w) = Returned
  ∧ useSignalsDepth (snd (run [CStart s; CFinish s] w)) = 0
  ∧ cleanUpFn (snd (run [CStart s; CFinish s] w)) = None
  ∧ store_of (snd (run [CStart s; CFinish s] w)) s
    = set_syncRerendersCount (syncRerendersCount (store_of w s) + 1)
        (set_inRender false (store_of w s)).
Proof.
  intros Hd Hc Hr.
  destruct (render_outermost s w Hd Hc) as (_ & _ & Hst).
  destruct (entered_frame s w) as (_ & _ & _ & Et).
  cbn [run call]. rewrite startTracking_outermost in * by done.
  cbn [snd] in Hst.
  rewrite (finishTracking_outermost s (nextHandle w)) in * by done.
  cbn [trace log set_useSignalsDepth set_cleanUpFn set_nextHandle] in *.
  rewrite Et, Hr in *. done.
Qed.

Lemma cycles_run n : ∀ s w,
  (∀ h tr, cleanup_raises h tr = false) →
  useSignalsDepth w = 0 → cleanUpFn w = None →
  fst (run (cycles n s) w) = Returned
  ∧ useSignalsDepth (snd (run (cycles n s) w)) = 0
  ∧ cleanUpFn (snd (run (cycles n s) w)) = None
  ∧ syncRerendersCount (store_of (snd (run (cycles n s) w)) s)
    = syncRerendersCount (store_of w s) + Z.of_nat n
  ∧ (n ≠ O → inRender (store_of (snd (run (cycles n s) w)) s) = false).
Proof.
  induction n as [|n IH]; intros s w Hnever Hd Hc.
  { simpl. repeat split; try done. lia. }
  change (cycles (S n) s) with ([CStart s; CFinish s] ++ cycles n s).
  rewrite run_app.
  destruct (cycle_once s w Hd Hc (Hnever _ _)) as (Ho & Hd1 & Hc1 & Hst).
  destruct (run [CStart s; CFinish s] w) as [o w1]. cbn [fst snd] in *. subst o.
  destruct (IH s w1 Hnever Hd1 Hc1) as (IHo & IHd & IHc & IHn & IHr).
  rewrite Hst in IHn. simpl in IHn.
  repeat split; try done; [lia|].
  intros _. destruct n as [|n]; [simpl; by rewrite Hst|by apply IHr].
Qed.

(** X9.  Where the ceiling lies.  A store with count 0 is rendered [n]
    times in a row, no reset in between, every cleanup returning: all
    [n] renders return and the count is [n].  A dependency change that
    follows throws the too-many-sync-rerenders error exactly when [n] is
    above 25: 26 renders are needed to reach it, 25 are not enough. *)
Theorem ceiling_after_renders n s w :
  (∀ h tr, cleanup_raises h tr = false) →
  useSignalsDepth w = 0 → cleanUpFn w = None →
  syncRerendersCount (store_of w s) = 0 →
  (0 < n)%nat →
  fst (run (cycles n s) w) = Returned
  ∧ syncRerendersCount (store_of (snd (run (cycles n s) w)) s) = Z.of_nat n
  ∧ ((25 < n)%nat →
     onDepsChange s (snd (run (cycles n s) w))
     = (Threw (TooManySyncRerenders (Z.of_nat n)), snd (run (cycles n s) w)))
  ∧ ((n ≤ 25)%nat →
     ∀ k, fst (onDepsChange s (snd (run (cycles n s) w)))
          ≠ Threw (TooManySyncRerenders k)).
Proof.
  intros Hnever Hd Hc H0 Hn.
  destruct (cycles_run n s w Hnever Hd Hc) as (Ho & _ & _ & Hcount & Hr).
  rewrite H0 in Hcount. simpl in Hcount.
  split; [done|]. split; [done|]. split.
  - intros Hgt. rewrite onDepsChange_too_many; rewrite ?Hcount; try done.
    + apply Hr. lia.
    + unfold maxSyncRerenders. lia.
  - intros Hle k Hthrow.
    destruct (onDepsChange s _) as [o w'] eqn:Hch. simpl in Hthrow. subst o.
    apply onDepsChange_too_many_inv in Hch as (_ & _ & -> & Hgt).
    rewrite Hcount in Hgt. unfold maxSyncRerenders in Hgt. lia.
Qed.

(** ** Stores rendered inside another *)

Lemma entered_inRender s w b :
  b = s ∨ inRender (store_of w b) = true →
  inRender (store_of (entered s w) b) = true.
Proof.
  intros Hb. destruct (decide (s = b)) as [<-|Hne].
  - by rewrite entered_store.
  - rewrite entered_store_ne by done. by destruct Hb as [->|].
Qed.

(** Inside an open region no store stops rendering, and every store
    started is rendering at the end. *)
Lemma run_nested_inRender cs :
  nested cs → ∀ w h b,
  0 < useSignalsDepth w → cleanUpFn w = Some h →
  started cs b ∨ inRender (store_of w b) = true →
  inRender (store_of (snd (run cs w)) b) = true.
Proof.
  unfold started.
  induction 1 as [|s inner rest Hin IHin Hrest IHrest]; intros w h b Hd Hc Hb.
  { simpl. destruct Hb as [Hs|]; [by apply elem_of_nil in Hs|done]. }
  cbn [run call].
  rewrite (startTracking_inner s h) by (done || lia).
  destruct (entered_frame s w) as (Ed & Ec & Eh & Et).
  set (w1 := set_useSignalsDepth _ _).
  assert (Hd1 : 0 < useSignalsDepth w1) by (simpl; lia).
  assert (Hc1 : cleanUpFn w1 = Some h) by (simpl; congruence).
  rewrite run_app.
  destruct (run_nested_inside inner Hin w1 h Hd1 Hc1) as (Io & Id & Ic & _).
  pose proof (IHin w1 h b Hd1 Hc1) as Hinner.
  destruct (run inner w1) as [o w2]. simpl in Io, Id, Ic, Hinner. subst o.
  cbn [run call].
  rewrite finishTracking_inner by lia.
  set (w3 := set_useSignalsDepth _ _).
  apply (IHrest w3 h b); [simpl; lia|done|].
  change (store_of w3 b) with (store_of w2 b).
  assert (Hw1 : b = s ∨ inRender (store_of w b) = true →
                inRender (store_of w1 b) = true) by apply entered_inRender.
  destruct Hb as [Hs|Hr]; [|right; apply Hinner; right; apply Hw1; by right].
  apply elem_of_cons in Hs as [[= ->]|Hs].
  { right. apply Hinner. right. apply Hw1. by left. }
  apply elem_of_app in Hs as [Hs|Hs]; [right; apply Hinner; by left|].
  apply elem_of_cons in Hs as [[=]|Hs]. by left.
Qed.

Lemma run_single c w : snd (run [c] w) = snd (call c w).
Proof. simpl. by destruct (call c w) as [[|e] w']. Qed.

(** X10.  [finishTracking] clears [inRender] of the store that closes the
    outermost region and of no other.  So after the render of [a], with
    any render stack inside it, every other store started in that stack
    is still marked as rendering, while [a] is not, and a dependency
    change that reaches such a store is ignored. *)
Theorem inner_store_keeps_rendering a b inner w :
  nested inner → started inner b → b ≠ a →
  useSignalsDepth w = 0 → cleanUpFn w = None →
  inRender (store_of (snd (run (CStart a :: inner ++ [CFinish a]) w)) b) = true
  ∧ inRender (store_of (snd (run (CStart a :: inner ++ [CFinish a]) w)) a) = false
  ∧ onDepsChange b (snd (run (CStart a :: inner ++ [CFinish a]) w))
    = (Returned, snd (run (CStart a :: inner ++ [CFinish a]) w)).
Proof.
  intros Hn Hb Hne Hd Hc.
  assert (Hgoal :
    inRender (store_of (snd (run (CStart a :: inner ++ [CFinish a]) w)) b) = true
    ∧ inRender (store_of (snd (run (CStart a :: inner ++ [CFinish a]) w)) a) = false).
  { cbn [run call]. rewrite startTracking_outermost by done.
    set (w1 := set_useSignalsDepth _ _).
    assert (Hd1 : 0 < useSignalsDepth w1) by (simpl; lia).
    assert (Hc1 : cleanUpFn w1 = Some (nextHandle w)) by done.
    rewrite run_app.
    destruct (run_nested_inside inner Hn w1 _ Hd1 Hc1) as (Io & Id & Ic & _).
    pose proof (run_nested_inRender inner Hn w1 _ b Hd1 Hc1 (or_introl Hb)) as Hr.
    destruct (run inner w1) as [o w2]. simpl in Io, Id, Ic, Hr. subst o.
    rewrite run_single. cbn [call].
    rewrite !finishTracking_store.
    rewrite (bool_decide_eq_false_2 (b = a ∧ _)) by (by intros (? & _)).
    rewrite bool_decide_eq_true_2 by (rewrite Ic; eauto).
    done. }
  destruct Hgoal as (Hb' & Ha'). split; [done|]. split; [done|].
  by apply onDepsChange_in_render.
Qed.

(** ** Deliveries, subscribed or not *)

Lemma onDepsChange_bumps s w :
  inRender (store_of w s) = false →
  syncRerendersCount (store_of w s) ≤ maxSyncRerenders →
  store_of (snd (onDepsChange s w)) s
  = set_version (toInt32 (version (store_of w s) + 1)) (store_of w s).
Proof.
  intros Hr Hc.
  destruct (onChangeNotifyReact (store_of w s)) as [cb|] eqn:Hcb.
  - rewrite (onDepsChange_notifies s cb) by done. cbn [snd].
    change (store_of (log ?e ?x) s) with (store_of x s).
    apply store_of_with_store_eq.
  - rewrite onDepsChange_silent by done. apply store_of_with_store_eq.
Qed.

Lemma deliver_store n : ∀ s w,
  inRender (store_of w s) = false →
  syncRerendersCount (store_of w s) ≤ maxSyncRerenders →
  store_of (deliver n s w) s
  = set_version (bumped n (version (store_of w s))) (store_of w s).
Proof.
  induction n as [|n IH]; intros s w Hr Hc.
  { simpl. by destruct (store_of w s). }
  cbn [deliver]. pose proof (onDepsChange_bumps s w Hr Hc) as Hst.
  rewrite IH; rewrite Hst; try done.
  by rewrite bumped_S_r.
Qed.

Lemma deliver_silent n : ∀ s w,
  onChangeNotifyReact (store_of w s) = None →
  trace (deliver n s w) = trace w
  ∧ onChangeNotifyReact (store_of (deliver n s w) s) = None.
Proof.
  induction n as [|n IH]; intros s w Hcb; [done|].
  cbn [deliver].
  destruct (onDepsChange_frame s w) as (_ & Hs & _).
  assert (Hcb' : onChangeNotifyReact (store_of (snd (onDepsChange s w)) s) = None)
    by (by destruct Hs as [->| ->]).
  destruct (IH s _ Hcb') as (-> & ->). split; [|done].
  destruct (onDepsChange_calls_only_then s w) as [Ht|(cb & _ & _ & Hsome & _)];
    [done|congruence].
Qed.

Lemma toInt32_add_fixed v n :
  - 2 ^ 31 ≤ v < 2 ^ 31 →
  toInt32 (v + n) = v ↔ n `mod` 2 ^ 32 = 0.
Proof.
  intros Hv. unfold toInt32.
  replace (v + n + 2 ^ 31) with ((v + 2 ^ 31) + n) by lia.
  rewrite <- Z.add_mod_idemp_r by lia.
  pose proof (Z.mod_pos_bound n (2 ^ 32) ltac:(lia)) as Hr.
  set (r := n `mod` 2 ^ 32) in *.
  destruct (decide (v + 2 ^ 31 + r < 2 ^ 32)) as [Hlt|Hge].
  - rewrite Z.mod_small by lia. lia.
  - replace (v + 2 ^ 31 + r) with ((v + 2 ^ 31 + r - 2 ^ 32) + 1 * 2 ^ 32) by lia.
    rewrite Z_mod_plus_full, Z.mod_small by lia. lia.
Qed.

(** X11.  Dependency changes delivered to a store without subscriber call
    nobody, however many they are and whatever state the store is in,
    and leave it without subscriber; outside a render and below the
    ceiling they advance the version all the same. *)
Theorem unsubscribed_deliveries_silent n s w :
  onChangeNotifyReact (store_of w s) = None →
  trace (deliver n s w) = trace w
  ∧ onChangeNotifyReact (store_of (deliver n s w) s) = None
  ∧ (inRender (store_of w s) = false →
     syncRerendersCount (store_of w s) ≤ maxSyncRerenders →
     (0 < n)%nat →
     getSnapshot s (deliver n s w) = toInt32 (getSnapshot s w + Z.of_nat n)).
Proof.
  intros Hcb. destruct (deliver_silent n s w Hcb) as (Ht & Hnone).
  split; [done|]. split; [done|].
  intros Hr Hc Hn. unfold getSnapshot. rewrite deliver_store by done. simpl.
  destruct n as [|n]; [lia|]. apply bumped_pos.
Qed.

(** X12.  Comparing snapshots tells a change from no change except when
    the changes are a multiple of 2^32: outside a render and below the
    ceiling, the snapshot after [n] deliveries is the snapshot before
    exactly when 2^32 divides [n]. *)
Theorem snapshot_repeats_every_2_32 n s w :
  inRender (store_of w s) = false →
  syncRerendersCount (store_of w s) ≤ maxSyncRerenders →
  - 2 ^ 31 ≤ getSnapshot s w < 2 ^ 31 →
  getSnapshot s (deliver n s w) = getSnapshot s w ↔ Z.of_nat n `mod` 2 ^ 32 = 0.
Proof.
  intros Hr Hc Hv. unfold getSnapshot in *. rewrite deliver_store by done. simpl.
  destruct n as [|n]; [done|].
  rewrite bumped_pos. by apply toInt32_add_fixed.
Qed.

(** X13.  A store has one subscriber at a time.  [subscribe] replaces
    the subscriber there was: after a second [subscribe] the deliveries
    call the second callback and it alone.  And the function returned by
    either [subscribe] removes whichever subscriber is current. *)
Theorem last_subscriber_is_notified n s cb1 cb2 w :
  inRender (store_of w s) = false →
  syncRerendersCount (store_of w s) ≤ maxSyncRerenders →
  trace (deliver n s (subscribe s cb2 (subscribe s cb1 w)))
  = trace w ++ notifications n s cb2 (getSnapshot s w)
  ∧ onChangeNotifyReact
      (store_of (unsubscribe s (subscribe s cb2 (subscribe s cb1 w))) s) = None
  ∧ trace (deliver n s (unsubscribe s (subscribe s cb2 (subscribe s cb1 w))))
    = trace w ++ [EvDispose s].
Proof.
  intros Hr Hc.
  assert (Hst : store_of (subscribe s cb2 (subscribe s cb1 w)) s
                = set_onChangeNotifyReact (Some cb2) (store_of w s)).
  { rewrite !subscribe_store, !bool_decide_eq_true_2 by done.
    by destruct (store_of w s). }
  assert (Hun : onChangeNotifyReact
      (store_of (unsubscribe s (subscribe s cb2 (subscribe s cb1 w))) s) = None).
  { rewrite unsubscribe_store. by rewrite bool_decide_eq_true_2. }
  split; [|split; [done|]].
  - destruct (deliver_spec n s cb2 (subscribe s cb2 (subscribe s cb1 w)))
      as (_ & ->); rewrite ?Hst; try done.
  - by destruct (deliver_silent n s _ Hun) as (-> & _).
Qed.

(** X14.  Registering a store for the reset twice is registering it
    once: the second call changes nothing, neither the registry nor the
    queue. *)
Theorem scheduleResetSyncRerenders_idempotent s w :
  scheduleResetSyncRerenders s (scheduleResetSyncRerenders s w)
  = scheduleResetSyncRerenders s w.
Proof.
  destruct (scheduleResetSyncRerenders_spec s w) as (_ & Hf & Hin & _).
  unfold scheduleResetSyncRerenders at 1.
  by rewrite Hf, bool_decide_eq_true_2.
Qed.

(** ** The component *)

Lemma createEffectStore_at_store a w s :
  store_of (createEffectStore_at a w) s
  = if bool_decide (s = a) then createEffectStore else store_of w s.
Proof.
  unfold createEffectStore_at. case_bool_decide as H; [subst|].
  - apply store_of_with_store_eq.
  - by apply store_of_with_store_ne.
Qed.

(** A render of [SignalValue] outside any other. *)
Lemma SignalValue_outermost v fresh storeRef w :
  useSignalsDepth w = 0 → cleanUpFn w = None →
  SignalValue v fresh storeRef w
  = (Some (default fresh storeRef),
     (if cleanup_raises (nextHandle w)
           (trace w ++ [EvStartRecording (default fresh storeRef) (nextHandle w)])
      then RThrew (CleanupRaised (nextHandle w))
      else if v then RValueThrew else RValue,
      snd (finishTracking (default fresh storeRef)
             (snd (startTracking (default fresh storeRef)
                     (match storeRef with
                      | Some _ => w
                      | None => createEffectStore_at fresh w
                      end)))))).
Proof.
  intros Hd Hc. unfold SignalValue, useSignals.
  destruct storeRef as [s|]; simpl.
  - rewrite startTracking_outermost by done.
    destruct (entered_frame s w) as (_ & _ & _ & Et).
    rewrite (finishTracking_outermost s (nextHandle w)) by done.
    simpl. rewrite Et. by destruct (cleanup_raises _ _).
  - set (w0 := createEffectStore_at fresh w).
    rewrite (startTracking_outermost fresh w0) by done.
    destruct (entered_frame fresh w0) as (_ & _ & _ & Et).
    rewrite (finishTracking_outermost fresh (nextHandle w0)) by done.
    simpl. rewrite Et. by destruct (cleanup_raises _ _).
Qed.

(** X15.  A render of [SignalValue] outside any other closes what it
    opens, whatever happens in between: one recording region is opened
    and the same one closed, the depth is back at 0 and the handle gone,
    the store is not rendering any more, also when reading the value
    throws and also when the cleanup throws.  What the cleanup throws
    takes the place of what the read threw. *)
Theorem SignalValue_brackets v fresh storeRef w :
  useSignalsDepth w = 0 → cleanUpFn w = None →
  fst (SignalValue v fresh storeRef w) = Some (default fresh storeRef)
  ∧ fst (snd (SignalValue v fresh storeRef w))
    = (if cleanup_raises (nextHandle w)
            (trace w ++ [EvStartRecording (default fresh storeRef) (nextHandle w)])
       then RThrew (CleanupRaised (nextHandle w))
       else if v then RValueThrew else RValue)
  ∧ trace (snd (snd (SignalValue v fresh storeRef w)))
    = trace w ++ [EvStartRecording (default fresh storeRef) (nextHandle w);
                  EvCleanup (nextHandle w)]
  ∧ useSignalsDepth (snd (snd (SignalValue v fresh storeRef w))) = 0
  ∧ cleanUpFn (snd (snd (SignalValue v fresh storeRef w))) = None
  ∧ inRender (store_of (snd (snd (SignalValue v fresh storeRef w)))
                (default fresh storeRef)) = false.
Proof.
  intros Hd Hc. rewrite SignalValue_outermost by done. cbn [fst snd].
  set (s := default fresh storeRef).
  set (w0 := match storeRef with Some _ => w | None => createEffectStore_at fresh w end).
  assert (H0 : useSignalsDepth w0 = 0 ∧ cleanUpFn w0 = None
               ∧ nextHandle w0 = nextHandle w ∧ trace w0 = trace w)
    by (unfold w0; by destruct storeRef).
  destruct H0 as (Hd0 & Hc0 & Hh0 & Ht0).
  rewrite (startTracking_outermost s w0) by done.
  destruct (entered_frame s w0) as (_ & _ & _ & Et).
  rewrite (finishTracking_outermost s (nextHandle w0)) by done.
  cbn [snd]. rewrite Hh0.
  split; [done|]. split; [done|]. split.
  - simpl. by rewrite Et, Ht0, <- app_assoc.
  - split; [done|]. split; [done|].
    pose proof (finishTracking_store s
      (set_useSignalsDepth 1
         (set_cleanUpFn (Some (nextHandle w0))
            (log (EvStartRecording s (nextHandle w0))
               (set_nextHandle (S (nextHandle w0)) (entered s w0))))) s) as Hst.
    rewrite bool_decide_eq_true_2 in Hst by (split; [done|split; [done|by eexists]]).
    rewrite (finishTracking_outermost s (nextHandle w0)) in Hst by done.
    cbn [snd] in Hst. rewrite Hh0 in Hst. by rewrite Hst.
Qed.

Lemma render_other s s' w :
  s' ≠ s →
  store_of (snd (finishTracking s (snd (startTracking s w)))) s' = store_of w s'.
Proof.
  intros Hne. rewrite finishTracking_store.
  rewrite bool_decide_eq_false_2 by (by intros (? & _)).
  rewrite startTracking_store. by apply entered_store_ne.
Qed.

(** What a render of [SignalValue] outside any other leaves. *)
Lemma SignalValue_outermost_world v fresh storeRef w :
  useSignalsDepth w = 0 → cleanUpFn w = None →
  fst (SignalValue v fresh storeRef w) = Some (default fresh storeRef)
  ∧ useSignalsDepth (snd (snd (SignalValue v fresh storeRef w))) = 0
  ∧ cleanUpFn (snd (snd (SignalValue v fresh storeRef w))) = None
  ∧ store_of (snd (snd (SignalValue v fresh storeRef w))) (default fresh storeRef)
    = set_syncRerendersCount
        (syncRerendersCount
           (match storeRef with
            | Some s => store_of w s
            | None => createEffectStore
            end) + 1)
        (set_inRender false
           (match storeRef with
            | Some s => store_of w s
            | None => createEffectStore
            end))
  ∧ ∀ s', s' ≠ default fresh storeRef →
          store_of (snd (snd (SignalValue v fresh storeRef w))) s' = store_of w s'.
Proof.
  intros Hd Hc. rewrite SignalValue_outermost by done. cbn [fst snd].
  destruct storeRef as [s|]; cbn [from_option id].
  - destruct (render_outermost s w Hd Hc) as (_ & _ & Hs).
    rewrite Hs, startTracking_outermost by done.
    rewrite (finishTracking_outermost s (nextHandle w)) by done.
    repeat split.
    intros s' Hne. rewrite <- (render_other s s' w Hne).
    rewrite startTracking_outermost by done.
    by rewrite (finishTracking_outermost s (nextHandle w)) by done.
  - assert (Hd0 : useSignalsDepth (createEffectStore_at fresh w) = 0) by done.
    assert (Hc0 : cleanUpFn (createEffectStore_at fresh w) = None) by done.
    destruct (render_outermost fresh _ Hd0 Hc0) as (_ & _ & Hs).
    rewrite Hs, createEffectStore_at_store, bool_decide_eq_true_2 by done.
    split; [done|]. split; [|split; [|split; [done|]]].
    + rewrite startTracking_outermost by done.
      by rewrite (finishTracking_outermost fresh (nextHandle (createEffectStore_at fresh w))).
    + rewrite startTracking_outermost by done.
      by rewrite (finishTracking_outermost fresh (nextHandle (createEffectStore_at fresh w))).
    + intros s' Hne. rewrite (render_other fresh s' _ Hne).
      rewrite createEffectStore_at_store. by rewrite bool_decide_eq_false_2.
Qed.

(** X16.  The store of a component is made once.  The first render, with
    an empty ref, makes it at the address given and keeps it in the ref;
    the next render with that ref uses it again and makes none, whatever
    address it is offered: the store has then counted two renders, its
    snapshot is still the initial 0, and the store at the address
    offered the second time is as it was. *)
Theorem SignalValue_store_made_once v v' fresh fresh' w :
  useSignalsDepth w = 0 → cleanUpFn w = None →
  fresh' ≠ fresh →
  fst (SignalValue v fresh None w) = Some fresh
  ∧ fst (SignalValue v' fresh' (fst (SignalValue v fresh None w))
           (snd (snd (SignalValue v fresh None w)))) = Some fresh
  ∧ syncRerendersCount
      (store_of (snd (snd (SignalValue v' fresh' (fst (SignalValue v fresh None w))
                             (snd (snd (SignalValue v fresh None w)))))) fresh) = 2
  ∧ getSnapshot fresh
      (snd (snd (SignalValue v' fresh' (fst (SignalValue v fresh None w))
                   (snd (snd (SignalValue v fresh None w)))))) = 0
  ∧ store_of (snd (snd (SignalValue v' fresh' (fst (SignalValue v fresh None w))
                          (snd (snd (SignalValue v fresh None w)))))) fresh'
    = store_of w fresh'.
Proof.
  intros Hd Hc Hne.
  destruct (SignalValue_outermost_world v fresh None w Hd Hc)
    as (Hr1 & Hd1 & Hc1 & Hs1 & Ho1).
  destruct (SignalValue v fresh None w) as [r1 [o1 w1]].
  cbn [fst snd from_option id] in *. subst r1.
  destruct (SignalValue_outermost_world v' fresh' (Some fresh) w1 Hd1 Hc1)
    as (Hr2 & _ & _ & Hs2 & Ho2).
  destruct (SignalValue v' fresh' (Some fresh) w1) as [r2 [o2 w2]].
  cbn [fst snd from_option id] in *. subst r2.
  unfold getSnapshot. rewrite Hs2, Hs1, (Ho2 fresh' Hne), (Ho1 fresh' Hne).
  repeat split.
Qed.

(** X7.  The assertions are out of reach of the module's own calls.
    From the initial world, whatever is done and in whatever order,
    [startTracking] returns; and [finishTracking] throws only for a
    depth that is 0 or for what the cleanup function threw. *)
Theorem assertions_out_of_reach os s :
  fst (startTracking s (perform_all os initial)) = Returned
  ∧ ∀ e, fst (finishTracking s (perform_all os initial)) = Threw e →
         e = DepthShouldBeNonNegative ∧ useSignalsDepth (perform_all os initial) = 0
         ∨ ∃ h, e = CleanupRaised h ∧ cleanUpFn (perform_all os initial) = Some h.
Proof.
  destruct (coherent_perform_all os initial coherent_initial) as (_ & Hd & Hi & _).
  set (w := perform_all os initial) in *. clearbody w. unfold tracking_inv in Hi.
  split.
  - destruct (decide (useSignalsDepth w = 0)) as [H0|H0].
    + destruct (cleanUpFn w) as [h|] eqn:Hc.
      * assert (0 < useSignalsDepth w) by (apply Hi; eauto). lia.
      * by rewrite startTracking_outermost.
    + destruct (cleanUpFn w) as [h|] eqn:Hc.
      * by rewrite (startTracking_inner s h).
      * assert (is_Some (@None nat)) as [? [=]]. apply Hi. lia.
  - intros e Hthrow.
    destruct (decide (useSignalsDepth w < 1)) as [Hlt|Hge].
    { rewrite finishTracking_at_depth_0 in Hthrow by done.
      left. split; [by injection Hthrow as <-|lia]. }
    destruct (cleanUpFn w) as [h|] eqn:Hc;
      [|assert (is_Some (@None nat)) as [? [=]]; apply Hi; lia].
    destruct (decide (useSignalsDepth w = 1)) as [H1|H1].
    + rewrite (finishTracking_outermost s h) in Hthrow by done.
      right. exists h. simpl in Hthrow.
      destruct (cleanup_raises h (trace w)); [by injection Hthrow as <-|done].
    + by rewrite finishTracking_inner in Hthrow by lia.
Qed.

(** ** The ceiling, the reset and the next render *)

(** What [startTracking] answers depends on the depth and the handle and
    on nothing else. *)
Lemma startTracking_outcome s w :
  fst (startTracking s w)
  = if bool_decide (useSignalsDepth w = 0)
    then (if bool_decide (is_Some (cleanUpFn w))
          then Threw CleanUpFnShouldBeUndefined else Returned)
    else (if bool_decide (is_Some (cleanUpFn w))
          then Returned else Threw CleanUpFnShouldBeDefined).
Proof.
  case_bool_decide as Hd; case_bool_decide as Hc.
  - by rewrite startTracking_handle_at_depth_0.
  - rewrite startTracking_outermost; [done..|].
    destruct (cleanUpFn w); [exfalso; eauto|done].
  - destruct Hc as [h Hc]. by rewrite (startTracking_inner s h).
  - rewrite startTracking_no_handle_at_depth; [done..|].
    destruct (cleanUpFn w); [exfalso; eauto|done].
Qed.

Lemma startTracking_returns_coherent s w :
  coherent w → fst (startTracking s w) = Returned.
Proof.
  intros (_ & Hd & Hi & _). unfold tracking_inv in Hi.
  rewrite startTracking_outcome.
  case_bool_decide as H0; case_bool_decide as Hc; try done.
  - apply Hi in Hc. lia.
  - exfalso. apply Hc, Hi. lia.
Qed.

(** In a coherent world the oldest microtask is the reset whenever a
    store has a count, and running it leaves no count. *)
Lemma runMicrotask_all_zero w :
  coherent w → ∀ s, syncRerendersCount (store_of (runMicrotask w) s) = 0.
Proof.
  intros (_ & _ & _ & Hm & Hr & _ & _ & Hreg) s.
  rewrite runMicrotask_unfold.
  destruct (microtasks w) as [|t q] eqn:Hq.
  - destruct (decide (syncRerendersCount (store_of w s) = 0)) as [|Hnz]; [done|].
    apply Hreg in Hnz.
    destruct (isResetSyncRerendersScheduled w); [done|].
    assert (Hne : resetSyncRerendersSet w ≠ []).
    { intros He. rewrite He in Hnz. by apply elem_of_nil in Hnz. }
    by apply Hr in Hne.
  - by apply (resetSyncRerenders_all_zero (set_microtasks q w)).
Qed.

Lemma coherent_counted_queued w s :
  coherent w → syncRerendersCount (store_of w s) ≠ 0 →
  microtasks w = [ResetSyncRerenders].
Proof.
  intros (_ & _ & _ & Hm & Hr & _ & _ & Hreg) Hnz.
  apply Hreg in Hnz.
  assert (Hne : resetSyncRerendersSet w ≠ []).
  { intros He. rewrite He in Hnz. by apply elem_of_nil in Hnz. }
  by rewrite Hm, (Hr Hne).
Qed.

(** C3, as the code has it.  [startTracking] never looks at the count:
    in every world its outcome is fixed by the depth and the handle, its
    only errors being the two assertions, so that renders in a row all
    return however many they are.  The ceiling is the handler's: a
    dependency change that reaches a store not rendering whose count is
    above 25, that is after more than 25 [startTracking] since the last
    reset, throws the too-many-sync-rerenders error and leaves the world
    alone.  In every state the module can reach, a store with a count left
    the reset queued, as every [startTracking] does; once the event loop
    has run it the count is 0, the next [startTracking] returns and
    brings it to 1, and a dependency change after that render does not
    throw that error. *)
Theorem ceiling_is_checked_on_dependency_change :
  (∀ s w,
     fst (startTracking s w)
     = (if bool_decide (useSignalsDepth w = 0)
        then (if bool_decide (is_Some (cleanUpFn w))
              then Threw CleanUpFnShouldBeUndefined else Returned)
        else (if bool_decide (is_Some (cleanUpFn w))
              then Returned else Threw CleanUpFnShouldBeDefined))
     ∧ ∀ n, fst (startTracking s w) ≠ Threw (TooManySyncRerenders n))
  ∧ (∀ n s w,
       (∀ h tr, cleanup_raises h tr = false) →
       useSignalsDepth w = 0 → cleanUpFn w = None →
       fst (run (cycles n s) w) = Returned
       ∧ syncRerendersCount (store_of (snd (run (cycles n s) w)) s)
         = syncRerendersCount (store_of w s) + Z.of_nat n)
  ∧ (∀ s w,
       inRender (store_of w s) = false →
       maxSyncRerenders < syncRerendersCount (store_of w s) →
       onDepsChange s w
       = (Threw (TooManySyncRerenders (syncRerendersCount (store_of w s))), w))
  ∧ (∀ os s,
       (syncRerendersCount (store_of (perform_all os initial) s) ≠ 0 →
        microtasks (perform_all os initial) = [ResetSyncRerenders])
       ∧ microtasks (snd (startTracking s (perform_all os initial)))
         = [ResetSyncRerenders]
       ∧ syncRerendersCount (store_of (runMicrotask (perform_all os initial)) s) = 0
       ∧ fst (startTracking s (runMicrotask (perform_all os initial))) = Returned
       ∧ syncRerendersCount
           (store_of (snd (startTracking s (runMicrotask (perform_all os initial)))) s)
         = 1
       ∧ ∀ n, fst (onDepsChange s
                     (snd (finishTracking s
                        (snd (startTracking s (runMicrotask (perform_all os initial)))))))
              ≠ Threw (TooManySyncRerenders n)).
Proof.
  split; [|split; [|split]].
  - intros s w. split; [apply startTracking_outcome|].
    intros n. rewrite startTracking_outcome. by repeat case_bool_decide.
  - intros n s w Hnever Hd Hc.
    by destruct (cycles_run n s w Hnever Hd Hc) as (? & _ & _ & ? & _).
  - intros s w Hr Hn. by apply onDepsChange_too_many.
  - intros os s.
    pose proof (coherent_perform_all os initial coherent_initial) as Hc.
    set (w := perform_all os initial) in *. clearbody w.
    pose proof (coherent_runMicrotask w Hc) as Hc'.
    pose proof (runMicrotask_all_zero w Hc s) as Hz.
    assert (H1 : syncRerendersCount
                   (store_of (snd (startTracking s (runMicrotask w))) s) = 1).
    { rewrite startTracking_store, entered_store. simpl. lia. }
    split; [by apply coherent_counted_queued|].
    split; [|split; [done|split; [by apply startTracking_returns_coherent|split; [done|]]]].
    + apply (coherent_counted_queued _ s); [by apply coherent_startTracking|].
      rewrite startTracking_store, entered_store. simpl.
      destruct Hc as (_ & _ & _ & _ & _ & _ & Hc0 & _). specialize (Hc0 s). lia.
    + intros n Hthrow.
      destruct (onDepsChange s _) as [o w'] eqn:Ho. simpl in Hthrow. subst o.
      apply onDepsChange_too_many_inv in Ho as (_ & _ & -> & Hgt).
      rewrite finishTracking_store in Hgt.
      assert (Hle : syncRerendersCount
        (if bool_decide (s = s ∧ useSignalsDepth (snd (startTracking s (runMicrotask w))) = 1
                         ∧ is_Some (cleanUpFn (snd (startTracking s (runMicrotask w)))))
         then set_inRender false (store_of (snd (startTracking s (runMicrotask w))) s)
         else store_of (snd (startTracking s (runMicrotask w))) s) = 1)
        by (by case_bool_decide).
      rewrite Hle in Hgt. unfold maxSyncRerenders in Hgt. lia.
Qed.

End Collaborators.

(** * The properties at work on concrete worlds *)

(** Three changes delivered to a subscribed store whose subscriber throws
    every time: the version goes from 0 to 3 and the subscriber was called
    three times. *)
Lemma deliveries_bump_and_notify_witness :
  getSnapshot 0 (deliver always 3 0 (subscribe 0 7 initial)) = 3
  ∧ notify_count 0 (trace (deliver always 3 0 (subscribe 0 7 initial))) = 3%nat.
Proof.
  destruct (deliveries_bump_and_notify always 3 0 7 (subscribe 0 7 initial))
    as (_ & Hv & Hn & _); [reflexivity | vm_compute; discriminate | reflexivity |].
  split; [apply Hv; lia | exact Hn].
Defined.

(** C1 as it is written fails above the ceiling.  Store 0 is rendered 26
    times before the reset runs, every render finished, and has a
    subscriber; the change then delivered is not counted in the version
    and the subscriber is not called. *)
Lemma deliveries_above_ceiling_counterexample :
  fst (run never (cycles 26 0) initial) = Returned
  ∧ inRender (store_of (subscribe 0 7 (snd (run never (cycles 26 0) initial))) 0) = false
  ∧ onChangeNotifyReact
      (store_of (deliver never 1 0 (subscribe 0 7 (snd (run never (cycles 26 0) initial)))) 0)
    = Some 7%nat
  ∧ getSnapshot 0 (subscribe 0 7 (snd (run never (cycles 26 0) initial))) = 0
  ∧ getSnapshot 0 (deliver never 1 0 (subscribe 0 7 (snd (run never (cycles 26 0) initial)))) = 0
  ∧ 0 `mod` 2 ^ 32 ≠ (0 + 1) `mod` 2 ^ 32
  ∧ notify_count 0
      (trace (deliver never 1 0 (subscribe 0 7 (snd (run never (cycles 26 0) initial)))))
    = notify_count 0 (trace (subscribe 0 7 (snd (run never (cycles 26 0) initial)))).
Proof. vm_compute. repeat split; discriminate. Qed.

Lemma change_during_render_ignored_witness :
  onDepsChange never 0 (snd (startTracking 0 (subscribe 0 7 initial)))
  = (Returned, snd (startTracking 0 (subscribe 0 7 initial))).
Proof.
  apply (change_during_render_ignored never 0
           (snd (startTracking 0 (subscribe 0 7 initial)))).
  reflexivity.
Defined.

(** C3 as it is written fails: 26 renders of store 0 before any reset all
    start and finish without a throw, the count is then 26, above the
    ceiling, the reset is still queued, and a 27th [startTracking]
    returns as well. *)
Lemma startTracking_above_ceiling_counterexample :
  fst (run never (cycles 26 0) initial) = Returned
  ∧ syncRerendersCount (store_of (snd (run never (cycles 26 0) initial)) 0) = 26
  ∧ maxSyncRerenders < 26
  ∧ microtasks (snd (run never (cycles 26 0) initial)) = [ResetSyncRerenders]
  ∧ fst (startTracking 0 (snd (run never (cycles 26 0) initial))) = Returned.
Proof. vm_compute. repeat split. Qed.

Lemma ceiling_is_checked_on_dependency_change_witness :
  onDepsChange never 0
    (perform_all never never (concat (replicate 26 [OStart 0; OFinish 0])) initial)
  = (Threw (TooManySyncRerenders 26),
     perform_all never never (concat (replicate 26 [OStart 0; OFinish 0])) initial)
  ∧ microtasks
      (perform_all never never (concat (replicate 26 [OStart 0; OFinish 0])) initial)
    = [ResetSyncRerenders]
  ∧ syncRerendersCount
      (store_of (runMicrotask
         (perform_all never never (concat (replicate 26 [OStart 0; OFinish 0])) initial)) 0)
    = 0.
Proof.
  destruct (ceiling_is_checked_on_dependency_change never never)
    as (_ & _ & Hthrow & Hreach).
  destruct (Hreach (concat (replicate 26 [OStart 0; OFinish 0])) 0%nat)
    as (Hq & _ & Hz & _).
  split; [|split; [|exact Hz]].
  - apply (Hthrow 0%nat); [reflexivity | vm_compute; reflexivity].
  - apply Hq. vm_compute. discriminate.
Defined.

(** Three units nested in the render of unit 0, two of them one inside
    the other. *)
Lemma nested_tracking_one_region_witness :
  trace (snd (run never
    (CStart 0 :: [CStart 1; CStart 2; CFinish 2; CFinish 1; CStart 3; CFinish 3]
       ++ [CFinish 0]) initial))
  = [EvStartRecording 0 0; EvCleanup 0].
Proof.
  apply (nested_tracking_one_region never 0
           [CStart 1; CStart 2; CFinish 2; CFinish 1; CStart 3; CFinish 3] initial).
  - apply (nested_cons 1 [CStart 2; CFinish 2] [CStart 3; CFinish 3]).
    + apply (nested_cons 2 [] []); apply nested_nil.
    + apply (nested_cons 3 [] []); apply nested_nil.
  - reflexivity.
  - reflexivity.
Defined.

Lemma version_written_before_notify_witness :
  trace (snd (onDepsChange always 0 (subscribe 0 7 initial))) = [EvNotify 0 7 1]
  ∧ getSnapshot 0 (snd (onDepsChange always 0 (subscribe 0 7 initial))) = 1
  ∧ fst (onDepsChange always 0 (subscribe 0 7 initial)) = Threw (NotifyRaised 7).
Proof.
  destruct (version_written_before_notify always 0 7 (subscribe 0 7 initial))
    as (Ht & Hv & _ & Hthrow & _);
    [reflexivity | vm_compute; discriminate | reflexivity |].
  split; [exact Ht | split; [exact Hv | apply Hthrow; reflexivity]].
Defined.

Lemma tracking_assertions_throw_witness :
  fst (finishTracking never 0 initial) = Threw DepthShouldBeNonNegative
  ∧ fst (startTracking 0 (set_cleanUpFn (Some 0%nat) initial))
    = Threw CleanUpFnShouldBeUndefined
  ∧ fst (startTracking 0 (set_useSignalsDepth 1 initial))
    = Threw CleanUpFnShouldBeDefined.
Proof.
  split; [|split].
  - apply (tracking_assertions_throw never 0 initial). vm_compute. reflexivity.
  - apply (tracking_assertions_throw never 0 (set_cleanUpFn (Some 0%nat) initial));
      [reflexivity | exists 0%nat; reflexivity].
  - apply (tracking_assertions_throw never 0 (set_useSignalsDepth 1 initial));
      [vm_compute; discriminate | reflexivity].
Defined.

Lemma reset_scheduled_once_witness :
  microtasks (schedule_all [0; 1; 0; 2]%nat initial) = [ResetSyncRerenders]
  ∧ resetSyncRerendersSet (resetSyncRerenders (schedule_all [0; 1; 0; 2]%nat initial)) = [].
Proof.
  destruct (reset_scheduled_once [0; 1; 0; 2]%nat initial)
    as (Hq & _ & _ & _ & He & _); [discriminate | reflexivity |].
  split; [exact Hq | exact He].
Defined.

Lemma tracking_inv_holds_witness :
  tracking_inv (snd (startTracking 0 initial))
  ∧ tracking_inv (snd (run never [CStart 0; CStart 1; CFinish 1; CFinish 0] initial)).
Proof.
  destruct (tracking_inv_holds never) as (H0 & Hs & _ & _ & Hr).
  split.
  - apply (Hs 0%nat initial); [exact H0 | reflexivity].
  - apply Hr.
Defined.

Lemma too_many_leaves_world_witness :
  snd (onDepsChange never 0 (snd (run never (cycles 26 0) initial)))
  = snd (run never (cycles 26 0) initial)
  ∧ maxSyncRerenders < 26.
Proof.
  destruct (too_many_leaves_world never 0
              (snd (run never (cycles 26 0) initial)) 26
              (snd (onDepsChange never 0 (snd (run never (cycles 26 0) initial)))))
    as (Hw & _ & _ & _ & Hn); [vm_compute; reflexivity |].
  split; [exact Hw | exact Hn].
Defined.

(** [finishTracking] clears [inRender] only when it closes the outermost
    region: a store rendered inside another keeps the flag after its own
    [finishTracking], and a change delivered to it then is ignored. *)
Example inner_store_stays_in_render :
  fst (run never [CStart 0; CStart 1; CFinish 1; CFinish 0] initial) = Returned
  ∧ inRender (store_of (snd (run never [CStart 0; CStart 1; CFinish 1; CFinish 0] initial)) 0)
    = false
  ∧ inRender (store_of (snd (run never [CStart 0; CStart 1; CFinish 1; CFinish 0] initial)) 1)
    = true.
Proof. vm_compute. repeat split. Qed.

(** * The further properties at work on concrete worlds *)

Lemma depth_never_negative_witness :
  finishTracking never 0 (perform_all never never [OStart 0; OFinish 0] initial)
  = (Threw DepthShouldBeNonNegative,
     perform_all never never [OStart 0; OFinish 0] initial).
Proof.
  apply (depth_never_negative never never [OStart 0; OFinish 0] 0). reflexivity.
Defined.

Lemma at_most_one_reset_pending_witness :
  (0 : StoreId) ∈ resetSyncRerendersSet
    (perform_all never never [OStart 0; OStart 1; OFinish 1; OFinish 0; OStart 0] initial).
Proof.
  apply (at_most_one_reset_pending never never
           [OStart 0; OStart 1; OFinish 1; OFinish 0; OStart 0]).
  vm_compute. discriminate.
Defined.

Lemma snapshot_stable_witness :
  getSnapshot 1 (snd (onDepsChange never 0 (subscribe 0 7 initial)))
  = getSnapshot 1 (subscribe 0 7 initial).
Proof.
  apply (snapshot_stable never never 0 1 7 (subscribe 0 7 initial)). discriminate.
Defined.

Lemma handler_writes_version_only_witness :
  trace (snd (onDepsChange always 0 (subscribe 0 7 initial))) = [EvNotify 0 7 1]
  ∧ store_of (snd (onDepsChange always 0 (subscribe 0 7 initial))) 1
    = store_of (subscribe 0 7 initial) 1.
Proof.
  destruct (handler_writes_version_only always 0 (subscribe 0 7 initial))
    as (_ & _ & _ & _ & _ & _ & _ & _ & _ & _ & Hother & Ht & _).
  split; [exact Ht | apply Hother; discriminate].
Defined.

Lemma finishTracking_throw_state_witness :
  useSignalsDepth (snd (finishTracking always 0 (snd (startTracking 0 initial)))) = 0
  ∧ inRender (store_of (snd (finishTracking always 0 (snd (startTracking 0 initial)))) 0)
    = false.
Proof.
  destruct (finishTracking_throw_state always 0 (snd (startTracking 0 initial))
              (CleanupRaised 0) eq_refl)
    as [(H & _)|[(H & _)|(h & _ & _ & _ & _ & Hd & _ & Hr & _)]];
    [discriminate H | discriminate H | split; [exact Hd | exact Hr]].
Defined.

Lemma ceiling_after_renders_witness :
  onDepsChange never 0 (snd (run never (cycles 26 0) initial))
  = (Threw (TooManySyncRerenders 26), snd (run never (cycles 26 0) initial))
  ∧ ∀ k, fst (onDepsChange never 0 (snd (run never (cycles 25 0) initial)))
         ≠ Threw (TooManySyncRerenders k).
Proof.
  split.
  - apply (ceiling_after_renders never never 26 0 initial);
      [intros; reflexivity | reflexivity | reflexivity | reflexivity | lia | lia].
  - apply (ceiling_after_renders never never 25 0 initial);
      [intros; reflexivity | reflexivity | reflexivity | reflexivity | lia | lia].
Defined.

Lemma inner_store_keeps_rendering_witness :
  inRender (store_of (snd (run never (CStart 0 :: [CStart 1; CFinish 1] ++ [CFinish 0])
                             initial)) 1) = true.
Proof.
  apply (inner_store_keeps_rendering never never 0 1 [CStart 1; CFinish 1] initial).
  - apply (nested_cons 1 [] []); apply nested_nil.
  - apply list_elem_of_here.
  - discriminate.
  - reflexivity.
  - reflexivity.
Defined.

Lemma unsubscribed_deliveries_silent_witness :
  trace (deliver never 3 0 initial) = []
  ∧ getSnapshot 0 (deliver never 3 0 initial) = 3.
Proof.
  destruct (unsubscribed_deliveries_silent never 3 0 initial) as (Ht & _ & Hv);
    [reflexivity |].
  split; [exact Ht |].
  apply Hv; [reflexivity | vm_compute; discriminate | lia].
Defined.

Lemma snapshot_repeats_every_2_32_witness :
  getSnapshot 0 (deliver never 1 0 initial) ≠ getSnapshot 0 initial.
Proof.
  intros Heq.
  apply (snapshot_repeats_every_2_32 never 1 0 initial) in Heq;
    [vm_compute in Heq; discriminate Heq
    | reflexivity | vm_compute; discriminate
    | vm_compute; split; [discriminate | reflexivity]].
Defined.

Lemma last_subscriber_is_notified_witness :
  trace (deliver never 2 0 (subscribe 0 2 (subscribe 0 1 initial)))
  = [EvNotify 0 2 1; EvNotify 0 2 2].
Proof.
  apply (last_subscriber_is_notified never 2 0 1 2 initial);
    [reflexivity | vm_compute; discriminate].
Defined.

Lemma SignalValue_brackets_witness :
  fst (snd (SignalValue always true 5 None initial)) = RThrew (CleanupRaised 0)
  ∧ useSignalsDepth (snd (snd (SignalValue always true 5 None initial))) = 0.
Proof.
  destruct (SignalValue_brackets always true 5 None initial)
    as (_ & Ho & _ & Hd & _); [reflexivity | reflexivity |].
  split; [exact Ho | exact Hd].
Defined.

Lemma SignalValue_store_made_once_witness :
  syncRerendersCount
    (store_of (snd (snd (SignalValue never false 6 (fst (SignalValue never false 5 None initial))
                           (snd (snd (SignalValue never false 5 None initial)))))) 5) = 2.
Proof.
  apply (SignalValue_store_made_once never false false 5 6 initial);
    [reflexivity | reflexivity | discriminate].
Defined.

Lemma assertions_out_of_reach_witness :
  DepthShouldBeNonNegative = DepthShouldBeNonNegative
  ∧ useSignalsDepth (perform_all never never [OStart 0; OFinish 0] initial) = 0
  ∨ ∃ h, DepthShouldBeNonNegative = CleanupRaised h
         ∧ cleanUpFn (perform_all never never [OStart 0; OFinish 0] initial) = Some h.
Proof.
  apply (assertions_out_of_reach never never [OStart 0; OFinish 0] 0).
  reflexivity.
Defined.
